(** * Hymod: one time step of the kernel and its mass-balance check

    A shallow embedding of [src/models/hymod/include/Hymod.h].

    - C++ [double] is the kernel's binary64 [float] ([PrimFloat]), whose
      operations are specified by [SpecFloat] through [FloatAxioms].
    - The [double* Sr] buffers live in a flat [memory] of doubles, addressed
      by element index; [Sr[i]] is the cell at [Sr + i].
    - [hymod_state] is passed by value, [new_state] and [fluxes] by
      reference: [run] takes their prior contents and returns the new ones
      together with the memory after the writes through [new_state.Sr].
    - [std::pow] and the class [LinearReservoir] are not part of the header;
      the kernel is written over an interface [Externals] providing them. *)

From Stdlib Require Import ZArith List Lia Bool.
From Stdlib Require Import Floats.
From stdpp Require Import base tactics list functions.

#[local] Set Warnings "-inexact-float".

Local Open Scope Z_scope.

(** ** Data model *)

(** [struct hymod_params]; every field, [n] included, is a [double]. *)
Record hymod_params := {
  max_storage : float;
  a : float;
  b : float;
  Ks : float;
  Kq : float;
  n : float
}.

(** Addresses of doubles in caller-owned memory. *)
Abbreviation ptr := Z (only parsing).
Abbreviation memory := (Z -> float) (only parsing).

(** [struct hymod_state]; [Sr] points to backing storage owned by the caller. *)
Record hymod_state := {
  storage : float;
  groundwater_storage : float;
  Sr : ptr
}.

(** [struct hymod_fluxes]. *)
Record hymod_fluxes := {
  slow_flow : float;
  runnoff : float;
  et_loss : float
}.

(** [enum HyModErrorCodes]. *)
Inductive HyModErrorCodes := NO_ERROR | MASS_BALANCE_ERROR.

(** The integer a code converts to when [run] returns it as [int]. *)
Definition code_value (c : HyModErrorCodes) : Z :=
  match c with
  | NO_ERROR => 0
  | MASS_BALANCE_ERROR => 100
  end.

(** ** Conversions of the double [params.n] *)

(** [nash_cascade.resize(params.n)]: the double converts to the vector's
    size type by truncation toward zero.  The conversion is undefined for a
    NaN, an infinity or a value at or below -1; the model gives 0 there. *)
Definition resize_len (x : float) : nat :=
  match Prim2SF x with
  | S754_finite false m e => Z.to_nat (Z.shiftl (Z.pos m) e)
  | _ => 0%nat
  end.

(** [for (int i = 0; i < params.n; ++i)]: [i] converts to double for the
    comparison, so the body runs for every [i] from 0 below the ceiling of
    [params.n], and not at all when [params.n] is a NaN, zero or negative.
    For an infinite [params.n] the C loop has no last round; the model
    gives 0 there. *)
Definition loop_len (x : float) : nat :=
  match Prim2SF x with
  | S754_finite false m e => Z.to_nat (- Z.shiftl (Z.neg m) e)
  | _ => 0%nat
  end.

(** The guard of that loop, as the code evaluates it. *)
Definition loop_guard (i : nat) (x : float) : bool :=
  (PrimFloat.of_uint63 (Uint63.of_Z (Z.of_nat i)) <? x)%float.

(** [params.n] is the count [k]: both loops of the kernel over the cascade
    run [k] times, which is the case for a non-negative integer [n]. *)
Definition cascade_count (p : hymod_params) (k : nat) : Prop :=
  resize_len (n p) = k /\ loop_len (n p) = k.

(** A counted C loop [for (i = 0; i < k; ++i) body]. *)
Definition for_loop {St : Type} (k : nat) (body : nat -> St -> St) (s : St) : St :=
  fold_left (fun s i => body i s) (seq 0 k) s.

(** ** What the header takes from elsewhere *)

(** [std::pow] from <cmath> and the class [LinearReservoir] of
    LinearReservoir.hpp: its default constructor (used by [resize]), its
    four-argument constructor, [response], which returns the outflow and
    updates the reservoir, and [get_storage]. *)
Class Externals := {
  pow : float -> float -> float;
  LinearReservoir : Type;
  LinearReservoir_default : LinearReservoir;
  LinearReservoir_new : float -> float -> float -> float -> LinearReservoir;
  response : LinearReservoir -> float -> float -> float * LinearReservoir;
  get_storage : LinearReservoir -> float
}.

(** ** The mass-balance check *)

(** Assignments to single fields of the structs. *)
Definition set_storage (s : hymod_state) (v : float) : hymod_state :=
  {| storage := v; groundwater_storage := groundwater_storage s; Sr := Sr s |}.
Definition set_groundwater_storage (s : hymod_state) (v : float) : hymod_state :=
  {| storage := storage s; groundwater_storage := v; Sr := Sr s |}.
Definition set_slow_flow (f : hymod_fluxes) (v : float) : hymod_fluxes :=
  {| slow_flow := v; runnoff := runnoff f; et_loss := et_loss f |}.
Definition set_runnoff (f : hymod_fluxes) (v : float) : hymod_fluxes :=
  {| slow_flow := slow_flow f; runnoff := v; et_loss := et_loss f |}.
Definition set_et_loss (f : hymod_fluxes) (v : float) : hymod_fluxes :=
  {| slow_flow := slow_flow f; runnoff := runnoff f; et_loss := v |}.

(** The two masses [hymod_kernel::mass_check] compares, as the pair
    [(inital_mass, final_mass)] just before the comparison. *)
Definition mass_terms (params : hymod_params) (current_state : hymod_state)
    (input_flux : float) (next_state : hymod_state)
    (calculated_fluxes : hymod_fluxes) (mem : memory) : float * float :=
  let inital_mass := (storage current_state + groundwater_storage current_state)%float in
  let final_mass := (storage next_state + groundwater_storage next_state)%float in
  let '(inital_mass, final_mass) :=
    for_loop (loop_len (n params))
      (fun i '(inital_mass, final_mass) =>
         ((inital_mass + mem (Sr current_state + Z.of_nat i)%Z)%float,
          (final_mass + mem (Sr next_state + Z.of_nat i)%Z)%float))
      (inital_mass, final_mass) in
  let inital_mass := (inital_mass + input_flux)%float in
  let final_mass :=
    (final_mass + (et_loss calculated_fluxes + runnoff calculated_fluxes
                   + slow_flow calculated_fluxes))%float in
  (inital_mass, final_mass).

(** [hymod_kernel::mass_check]; [x > y] on doubles is [y <? x]. *)
Definition mass_check (params : hymod_params) (current_state : hymod_state)
    (input_flux : float) (next_state : hymod_state)
    (calculated_fluxes : hymod_fluxes) (mem : memory) : Z :=
  let '(inital_mass, final_mass) :=
    mass_terms params current_state input_flux next_state calculated_fluxes mem in
  if (0.000001 <? inital_mass - final_mass)%float
  then code_value MASS_BALANCE_ERROR
  else code_value NO_ERROR.

(** ** The kernel *)

(** What a call of [run] leaves behind: the returned [int], the objects
    behind the references [new_state] and [fluxes], and the memory. *)
Record run_result := {
  status : Z;
  out_state : hymod_state;
  out_fluxes : hymod_fluxes;
  out_mem : memory
}.

(** The caller's side of a call: its current-state object, the objects it
    passes by reference, and the memory holding the [Sr] buffers. *)
Record caller := {
  its_state : hymod_state;
  its_new_state : hymod_state;
  its_fluxes : hymod_fluxes;
  its_memory : Z -> float
}.

Section Kernel.
Context `{E : Externals}.

(** [hymod_kernel::calc_et], the stub; [et_params] is an opaque pointer. *)
Definition calc_et (soil_m : float) (et_params : ptr) : float := 0%float.

(** "initalize the nash cascade": [resize], then one assignment per slot. *)
Definition nash_init (params : hymod_params) (state : hymod_state)
    (mem : memory) : list LinearReservoir :=
  let nash_cascade := replicate (resize_len (n params)) LinearReservoir_default in
  for_loop (length nash_cascade)
    (fun i nash_cascade =>
       <[i := LinearReservoir_new (mem (Sr state + Z.of_nat i))
                (max_storage params) (Kq params) 86400%float]> nash_cascade)
    nash_cascade.

(** [for (i...) runoff = nash_cascade[i].response(runoff, dt);] where
    [response] updates the reservoir in slot [i]. *)
Definition nash_response (dt : float) (nash_cascade : list LinearReservoir)
    (runoff : float) : float * list LinearReservoir :=
  for_loop (length nash_cascade)
    (fun i '(runoff, nash_cascade) =>
       match nash_cascade !! i with
       | Some r =>
           let '(out, r') := response r runoff dt in
           (out, <[i := r']> nash_cascade)
       | None => (runoff, nash_cascade)
       end)
    (runoff, nash_cascade).

(** [for (i...) new_state.Sr[i] = nash_cascade[i].get_storage();] *)
Definition store_cascade (new_Sr : ptr) (nash_cascade : list LinearReservoir)
    (mem : memory) : memory :=
  for_loop (length nash_cascade)
    (fun i (mem : memory) =>
       match nash_cascade !! i with
       | Some r => <[new_Sr + Z.of_nat i := get_storage r]> mem
       | None => mem
       end)
    mem.

(** [hymod_kernel::run]. *)
Definition run (dt : float) (params : hymod_params) (state : hymod_state)
    (new_state : hymod_state) (fluxes : hymod_fluxes) (input_flux : float)
    (et_params : ptr) (mem : memory) : run_result :=
  let nash_cascade := nash_init params state mem in
  let groundwater :=
    LinearReservoir_new (groundwater_storage state) (max_storage params)
      (Ks params) 86400%float in
  let state := set_storage state (storage state + input_flux)%float in
  let fs := (1 - pow (1 - storage state / max_storage params) (b params))%float in
  let runoff := (fs * a params)%float in
  let slow := (fs * (1 - a params))%float in
  let soil_m := (storage state - fs)%float in
  let et := calc_et soil_m et_params in
  let '(slow_flow, groundwater) := response groundwater slow dt in
  let '(runoff, nash_cascade) := nash_response dt nash_cascade runoff in
  let fluxes := set_slow_flow fluxes slow_flow in
  let fluxes := set_runnoff fluxes runoff in
  let fluxes := set_et_loss fluxes et in
  let new_state := set_storage new_state (soil_m - et)%float in
  let new_state := set_groundwater_storage new_state (get_storage groundwater) in
  let mem := store_cascade (Sr new_state) nash_cascade mem in
  {| status := mass_check params state input_flux new_state fluxes mem;
     out_state := new_state;
     out_fluxes := fluxes;
     out_mem := mem |}.

(** The C entry point [hymod] passes its arguments on, dereferencing the
    two pointers. *)
Definition hymod := run.

(** *** The same step, stated over the data it traverses *)

(** The reservoir the kernel builds for cascade slot [i]. *)
Definition cascade_reservoir (params : hymod_params) (state : hymod_state)
    (mem : memory) (i : nat) : LinearReservoir :=
  LinearReservoir_new (mem (Sr state + Z.of_nat i)) (max_storage params)
    (Kq params) 86400%float.

(** The cascade as a pipeline: each reservoir responds to the outflow of
    the one before it.  The result is the last outflow and the reservoirs
    after their responses. *)
Fixpoint pipeline (dt : float) (cascade : list LinearReservoir) (inflow : float)
    : float * list LinearReservoir :=
  match cascade with
  | [] => (inflow, [])
  | r :: rest =>
      let '(out, r') := response r inflow dt in
      let '(final, rest') := pipeline dt rest out in
      (final, r' :: rest')
  end.


(** The storage-excess fraction of §4.1, step 4. *)
Definition excess_fraction (params : hymod_params) (s : float) : float :=
  (1 - pow (1 - s / max_storage params) (b params))%float.

(** The groundwater reservoir's response to the slow-flow input. *)
Definition groundwater_step (dt : float) (params : hymod_params)
    (state : hymod_state) (slow : float) : float * LinearReservoir :=
  response
    (LinearReservoir_new (groundwater_storage state) (max_storage params)
       (Ks params) 86400%float)
    slow dt.

(** The cascade the kernel builds from the caller's [state.Sr]. *)
Definition initial_cascade (params : hymod_params) (state : hymod_state)
    (mem : memory) : list LinearReservoir :=
  cascade_reservoir params state mem <$> seq 0 (resize_len (n params)).

(** What one step computes, with no reference to the check: the new
    state, the fluxes and the memory after the stores. *)
Definition step_outputs (dt : float) (params : hymod_params)
    (state new_state : hymod_state) (input_flux : float) (et_params : ptr)
    (mem : memory) : hymod_state * hymod_fluxes * memory :=
  let s := (storage state + input_flux)%float in
  let fs := excess_fraction params s in
  let soil_m := (s - fs)%float in
  let et := calc_et soil_m et_params in
  let gw := groundwater_step dt params state (fs * (1 - a params))%float in
  let nc := pipeline dt (initial_cascade params state mem) (fs * a params)%float in
  ({| storage := (soil_m - et)%float;
      groundwater_storage := get_storage (snd gw);
      Sr := Sr new_state |},
   {| slow_flow := fst gw; runnoff := fst nc; et_loss := et |},
   store_cascade (Sr new_state) (snd nc) mem).

(** The cascade after its responses in a call of [run]. *)
Definition cascade_after (dt : float) (params : hymod_params)
    (state : hymod_state) (input_flux : float) (mem : Z -> float)
    : list LinearReservoir :=
  snd (pipeline dt (initial_cascade params state mem)
         (excess_fraction params (storage state + input_flux) * a params)%float).

(** The caller's call [run(dt, params, state, new_state, fluxes, input_flux,
    et_params)]: [state] is copied into the parameter, the two references
    are written through.  Returns the status and the caller afterwards. *)
Definition call_run (dt : float) (params : hymod_params) (c : caller)
    (input_flux : float) (et_params : ptr) : Z * caller :=
  let r := run dt params (its_state c) (its_new_state c) (its_fluxes c)
             input_flux et_params (its_memory c) in
  (status r,
   {| its_state := its_state c;
      its_new_state := out_state r;
      its_fluxes := out_fluxes r;
      its_memory := out_mem r |}).

End Kernel.

(** The cascade storages before the step, read through [Sr]. *)
Definition cascade_storages (mem : memory) (sr : ptr) (k : nat) : list float :=
  (fun i => mem (sr + Z.of_nat i)) <$> seq 0 k.

(** The caller's buffers [p .. p+k) and [q .. q+k) do not overlap. *)
Definition buffers_disjoint (p q : Z) (k : nat) : Prop :=
  p + Z.of_nat k <= q \/ q + Z.of_nat k <= p.

(** The result carries the sign [s] (or is a NaN). *)
Definition signed_as (s : bool) (r : spec_float) : bool :=
  match r with
  | S754_nan => true
  | S754_zero s' | S754_infinity s' | S754_finite s' _ _ => Bool.eqb s s'
  end.

(** ** A sample instance of the externals, to run the kernel *)

Module Sample.

(** Modelled from the spec: LinearReservoir.hpp is not among the sources.
    The spec describes a storage element built from an initial storage, a
    maximum capacity, a decay coefficient and a sub-step duration, "whose
    outflow is proportional to its current storage, governed by a decay
    coefficient", and which takes the inflow into its storage.  This
    instance only serves to evaluate the kernel on concrete inputs; the
    theorems hold for every [LinearReservoir]. *)
Record reservoir := {
  res_storage : float;
  res_max_storage : float;
  res_k : float;
  res_s : float
}.

Definition reservoir_response (r : reservoir) (in_flux dt : float)
    : float * reservoir :=
  let filled := (res_storage r + in_flux)%float in
  let out := (res_k r * filled)%float in
  (out, {| res_storage := (filled - out)%float;
           res_max_storage := res_max_storage r;
           res_k := res_k r;
           res_s := res_s r |}).

(** [std::pow] belongs to the C library.  The instance gives its value
    for the exponents 0, 1 and 2, where it is [1], [x] and the rounded
    product [x * x] (the value of [pow] whenever that product is exact),
    and a NaN elsewhere.  The theorems hold for every [pow]. *)
Definition sample_pow (x y : float) : float :=
  if (y =? 0)%float then 1%float
  else if (y =? 1)%float then x
  else if (y =? 2)%float then (x * x)%float
  else nan.

Definition externals : Externals := {|
  pow := sample_pow;
  LinearReservoir := reservoir;
  LinearReservoir_default :=
    {| res_storage := 0; res_max_storage := 1; res_k := 0.5; res_s := 86400 |};
  LinearReservoir_new := Build_reservoir;
  response := reservoir_response;
  get_storage := res_storage
|}.

(** Memory holding the doubles of [l] from address [base] on, zero elsewhere. *)
Definition mem_of (base : Z) (l : list float) : Z -> float :=
  fun q => if (q <? base)%Z then 0%float
           else nth (Z.to_nat (q - base)) l 0%float.

End Sample.

(** ** Concrete inputs *)

Module Scenario.

(** Two cascade reservoirs; storage 32 + input 32 fills half of
    [max_storage = 128], so that [fs = 1 - 0.5^2 = 0.75] exactly. *)
Definition params : hymod_params :=
  {| max_storage := 128; a := 0.5; b := 2; Ks := 0.25; Kq := 0.5; n := 2 |}.

Definition state : hymod_state :=
  {| storage := 32; groundwater_storage := 8; Sr := 0 |}.

Definition mem : Z -> float := Sample.mem_of 0 [4; 2]%float.

(** Output objects with arbitrary prior contents. *)
Definition new_state : hymod_state :=
  {| storage := 7; groundwater_storage := 7; Sr := 10 |}.
Definition fluxes : hymod_fluxes :=
  {| slow_flow := 9; runnoff := 9; et_loss := 9 |}.

(** Other output objects, another destination buffer and a memory that
    differs outside the state's buffer: 7 in the cells 2 to 19, then 99
    and 98 in the destination cells 20 and 21. *)
Definition new_state' : hymod_state :=
  {| storage := -1; groundwater_storage := 3; Sr := 20 |}.
Definition fluxes' : hymod_fluxes :=
  {| slow_flow := 1; runnoff := 2; et_loss := 3 |}.
Definition mem' : Z -> float :=
  Sample.mem_of 0 ([4; 2] ++ repeat 7 18 ++ [99; 98])%float.

Definition the_caller : caller :=
  {| its_state := state; its_new_state := new_state;
     its_fluxes := fluxes; its_memory := mem |}.

(** No cascade, and a storage that reaches a [max_storage] below 1. *)
Definition small_params : hymod_params :=
  {| max_storage := 0.5; a := 0.5; b := 1; Ks := 0.25; Kq := 0.5; n := 0 |}.
Definition small_state : hymod_state :=
  {| storage := 0.25; groundwater_storage := 0; Sr := 0 |}.

Definition result : run_result :=
  run (E := Sample.externals) 1 params state new_state fluxes 32 0 mem.

(** A count with a fractional part: the cascade has two reservoirs, the
    loop of the check runs three times. *)
Definition fractional_params : hymod_params :=
  {| max_storage := 128; a := 0.5; b := 2; Ks := 0.25; Kq := 0.5; n := 2.5 |}.

(** A memory like [mem] but for the cell behind the destination buffer. *)
Definition stale_mem : Z -> float :=
  Sample.mem_of 0 ([4; 2] ++ repeat 0 10 ++ [-100])%float.

(** An output object whose [Sr] is the state's own buffer. *)
Definition in_place_state : hymod_state :=
  {| storage := 7; groundwater_storage := 7; Sr := 0 |}.


(** States and fluxes for a loss of exactly the tolerance. *)
Definition tolerance_state : hymod_state :=
  {| storage := 0.000001; groundwater_storage := 0; Sr := 0 |}.
Definition zero_state : hymod_state :=
  {| storage := 0; groundwater_storage := 0; Sr := 0 |}.
Definition zero_fluxes : hymod_fluxes :=
  {| slow_flow := 0; runnoff := 0; et_loss := 0 |}.

End Scenario.

(** ** Facts on binary64 arithmetic used below *)

Module FloatFacts.

Lemma binary_round_aux_signed s m e l :
  signed_as s (binary_round_aux prec emax s m e l) = true.
Proof.
  unfold binary_round_aux.
  destruct (shr_fexp prec emax m e l) as [r1 e1].
  destruct (shr_fexp prec emax _ e1 loc_Exact) as [r2 e2].
  destruct (shr_m r2); [| destruct (Z.leb e2 _) |]; simpl; auto using eqb_reflx.
Qed.

Lemma binary_round_signed s m e :
  signed_as s (binary_round prec emax s m e) = true.
Proof.
  unfold binary_round. destruct (shl_align m e _) as [mz ez].
  apply binary_round_aux_signed.
Qed.


Lemma binary_normalize_nonneg m e :
  0 <= m -> signed_as false (binary_normalize prec emax m e false) = true.
Proof.
  destruct m as [|p|p]; try lia; intros _; [reflexivity|apply binary_round_signed].
Qed.

Lemma iter_xO_mul (d m : positive) :
  Z.pos (Pos.iter xO m d) = Z.pos m * 2 ^ Z.pos d.
Proof.
  revert m. induction d as [|d IH] using Pos.peano_ind; intros m.
  - simpl. lia.
  - rewrite Pos.iter_succ, Pos2Z.inj_xO, IH, Pos2Z.inj_succ, Z.pow_succ_r by lia. lia.
Qed.

Lemma shl_align_fst m e e' :
  e' <= e -> Z.pos (fst (shl_align m e e')) = Z.pos m * 2 ^ (e - e').
Proof.
  intros He. unfold shl_align.
  destruct (e' - e) as [|d|d] eqn:Hd; simpl.
  - replace (e - e') with 0 by lia. simpl. lia.
  - lia.
  - rewrite iter_xO_mul. f_equal. f_equal. lia.
Qed.

Lemma digits2_pos_size m : digits2_pos m = Pos.size m.
Proof. induction m; simpl; congruence. Qed.

(** A valid finite binary64 number: exponent at least [emin], a mantissa
    of at most 53 bits, of exactly 53 bits above the least exponent. *)
Lemma valid_finite_bounds s m e :
  valid_binary (S754_finite s m e) = true ->
  -1074 <= e /\ Z.pos m < 2 ^ 53 /\ (-1074 < e -> 2 ^ 52 <= Z.pos m).
Proof.
  unfold SpecFloat.valid_binary, bounded, canonical_mantissa, fexp, SpecFloat.emin, prec, emax.
  rewrite andb_true_iff, Z.eqb_eq, Z.leb_le, digits2_pos_size.
  intros [Hc _].
  pose proof (Pos.size_gt m) as Hgt. pose proof (Pos.size_le m) as Hle.
  apply Pos2Z.pos_lt_pos in Hgt. apply Pos2Z.pos_le_pos in Hle.
  rewrite Pos2Z.inj_pow in Hgt, Hle. rewrite Pos2Z.inj_xO in Hle.
  assert (Hs : Z.pos (Pos.size m) <= 53) by lia.
  repeat split; try lia.
  - eapply Z.lt_le_trans; [exact Hgt|]. apply Z.pow_le_mono_r; lia.
  - intros Hlt. assert (Hd : Z.pos (Pos.size m) = 53) by lia.
    rewrite Hd in Hle. change (2 ^ 53) with (2 * 2 ^ 52) in Hle. lia.
Qed.


(** The comparison of two valid finite numbers is the comparison of their
    mantissas once aligned on the smaller exponent. *)
Lemma pos_aligned_compare mx ex my ey :
  valid_binary (S754_finite false mx ex) = true ->
  valid_binary (S754_finite false my ey) = true ->
  match ex ?= ey with
  | Lt => Lt
  | Gt => Gt
  | Eq => Pos.compare_cont Eq mx my
  end
  = (Z.pos mx * 2 ^ (ex - Z.min ex ey) ?= Z.pos my * 2 ^ (ey - Z.min ex ey)).
Proof.
  intros Hx Hy.
  apply valid_finite_bounds in Hx. apply valid_finite_bounds in Hy.
  destruct Hx as (Hex & Hmx & Hnx), Hy as (Hey & Hmy & Hny).
  change (2 ^ 53) with (2 * 2 ^ 52) in *.
  destruct (Z.compare_spec ex ey) as [He|He|He].
  - subst ey. rewrite Z.min_id, Z.sub_diag, Z.pow_0_r, !Z.mul_1_r. reflexivity.
  - rewrite Z.min_l, Z.sub_diag, Z.pow_0_r, Z.mul_1_r by lia.
    symmetry. apply Z.compare_lt_iff.
    assert (2 ^ 1 <= 2 ^ (ey - ex)) by (apply Z.pow_le_mono_r; lia).
    change (2 ^ 1) with 2 in *. nia.
  - rewrite Z.min_r, Z.sub_diag, Z.pow_0_r, Z.mul_1_r by lia.
    symmetry. apply Z.compare_gt_iff.
    assert (2 ^ 1 <= 2 ^ (ex - ey)) by (apply Z.pow_le_mono_r; lia).
    change (2 ^ 1) with 2 in *. nia.
Qed.

Lemma aligned_compare sx mx ex sy my ey :
  valid_binary (S754_finite sx mx ex) = true ->
  valid_binary (S754_finite sy my ey) = true ->
  SFcompare (S754_finite sx mx ex) (S754_finite sy my ey)
  = Some (cond_Zopp sx (Z.pos (fst (shl_align mx ex (Z.min ex ey))))
          ?= cond_Zopp sy (Z.pos (fst (shl_align my ey (Z.min ex ey))))).
Proof.
  intros Hx Hy. rewrite !shl_align_fst by lia.
  pose proof (pos_aligned_compare mx ex my ey Hx Hy) as Hc.
  assert (0 < 2 ^ (ex - Z.min ex ey)) by (apply Z.pow_pos_nonneg; lia).
  assert (0 < 2 ^ (ey - Z.min ex ey)) by (apply Z.pow_pos_nonneg; lia).
  destruct sx, sy; simpl SFcompare; unfold cond_Zopp; f_equal.
  - rewrite Z.compare_opp, (Z.compare_antisym (Z.pos mx * _)), <- Hc.
    destruct (ex ?= ey); reflexivity.
  - symmetry. apply Z.compare_lt_iff. nia.
  - symmetry. apply Z.compare_gt_iff. nia.
  - exact Hc.
Qed.

(** Rounding a non-negative mantissa never produces a NaN. *)
Lemma shr_1_nonneg r : 0 <= shr_m r -> 0 <= shr_m (shr_1 r).
Proof. destruct r as [[|[p|p|]|[p|p|]] r s]; simpl; lia. Qed.

Lemma iter_shr_1_nonneg p r :
  0 <= shr_m r -> 0 <= shr_m (SpecFloat.iter_pos shr_1 p r).
Proof.
  revert r. induction p as [p IH|p IH|]; simpl; intros r Hr;
    auto using shr_1_nonneg.
Qed.

Lemma shr_fexp_nonneg m e l :
  0 <= m -> 0 <= shr_m (fst (shr_fexp prec emax m e l)).
Proof.
  intros Hm. unfold shr_fexp, shr.
  assert (Hr : 0 <= shr_m (shr_record_of_loc m l)) by (destruct l as [|[]]; exact Hm).
  destruct (_ - e); simpl; auto using iter_shr_1_nonneg.
Qed.

Lemma binary_round_aux_not_nan s m e l :
  0 <= m -> binary_round_aux prec emax s m e l <> S754_nan.
Proof.
  intros Hm. unfold binary_round_aux.
  pose proof (shr_fexp_nonneg m e l Hm) as H1.
  destruct (shr_fexp prec emax m e l) as [r1 e1]. simpl in H1.
  assert (H2 : 0 <= round_nearest_even (shr_m r1) (loc_of_shr_record r1)).
  { unfold round_nearest_even.
    destruct (loc_of_shr_record r1) as [|[]]; try destruct (Z.even _); lia. }
  pose proof (shr_fexp_nonneg _ e1 loc_Exact H2) as H3.
  destruct (shr_fexp prec emax _ e1 loc_Exact) as [r2 e2]. simpl in H3.
  destruct (shr_m r2); [|destruct (Z.leb e2 _)|]; try discriminate. lia.
Qed.

Lemma binary_normalize_not_nan m e :
  binary_normalize prec emax m e false <> S754_nan.
Proof.
  destruct m as [|p|p]; simpl; try discriminate;
    unfold binary_round; destruct (shl_align p e _) as [mz ez];
    apply binary_round_aux_not_nan; lia.
Qed.

(** *** Consequences for [float] *)

Lemma Prim2SF_zero : Prim2SF 0%float = S754_zero false.
Proof. reflexivity. Qed.

(** Subtracting [0.0] changes nothing. *)
Lemma sub_zero_r (x : float) : (x - 0)%float = x.
Proof.
  apply Prim2SF_inj. rewrite sub_spec, Prim2SF_zero.
  destruct (Prim2SF x) as [[]|[]| |s m e]; reflexivity.
Qed.



(** The difference of a finite number and one that is not larger is
    non-negative. *)
Lemma leb_sub_nonneg (x y : float) :
  (y <=? x)%float = true -> (x <? infinity)%float = true ->
  (neg_infinity <? x)%float = true ->
  (0 <=? x - y)%float = true.
Proof.
  rewrite !leb_spec, !ltb_spec, sub_spec, Prim2SF_zero.
  change (Prim2SF infinity) with (S754_infinity false).
  change (Prim2SF neg_infinity) with (S754_infinity true).
  unfold SFltb, SFleb, SF64sub.
  pose proof (Prim2SF_valid x) as Hx. pose proof (Prim2SF_valid y) as Hy.
  destruct (Prim2SF x) as [sx|sx| |sx mx ex], (Prim2SF y) as [sy|sy| |sy my ey];
    try (simpl; repeat match goal with s : bool |- _ => destruct s end;
         simpl; congruence).
  rewrite (aligned_compare _ _ _ _ _ _ Hy Hx), Z.min_comm. unfold SFsub.
  intros Hc _ _.
  pose proof (binary_normalize_not_nan
    (cond_Zopp sx (Z.pos (fst (shl_align mx ex (Z.min ex ey))))
     - cond_Zopp sy (Z.pos (fst (shl_align my ey (Z.min ex ey))))) (Z.min ex ey)) as Hn.
  pose proof (binary_normalize_nonneg
    (cond_Zopp sx (Z.pos (fst (shl_align mx ex (Z.min ex ey))))
     - cond_Zopp sy (Z.pos (fst (shl_align my ey (Z.min ex ey))))) (Z.min ex ey)) as Hs.
  assert (Hle : 0 <= cond_Zopp sx (Z.pos (fst (shl_align mx ex (Z.min ex ey))))
     - cond_Zopp sy (Z.pos (fst (shl_align my ey (Z.min ex ey))))).
  { apply Z.le_0_sub.
    destruct (_ ?= _) eqn:Hcmp in Hc; try discriminate;
      [apply Z.compare_eq_iff in Hcmp; rewrite Hcmp; apply Z.le_refl
      |apply Z.compare_lt_iff in Hcmp; apply Z.lt_le_incl; exact Hcmp]. }
  specialize (Hs Hle).
  destruct (binary_normalize _ _ _ _ _) as [[]|[]| |[] m e];
    try reflexivity; try discriminate; congruence.
Qed.

(** The sum of two non-negative numbers is non-negative. *)
Lemma add_nonneg (x y : float) :
  (0 <=? x)%float = true -> (0 <=? y)%float = true ->
  (0 <=? x + y)%float = true.
Proof.
  rewrite !leb_spec, add_spec, Prim2SF_zero. unfold SFleb, SF64add.
  destruct (Prim2SF x) as [sx|sx| |sx mx ex], (Prim2SF y) as [sy|sy| |sy my ey];
    try (simpl; repeat match goal with s : bool |- _ => destruct s end;
         simpl; congruence).
  intros Hx0 Hy0.
  assert (sx = false) as -> by (destruct sx; [discriminate Hx0|reflexivity]).
  assert (sy = false) as -> by (destruct sy; [discriminate Hy0|reflexivity]).
  unfold SFadd. cbv zeta.
  match goal with
  | |- context [binary_normalize _ _ ?m ?e false] =>
      pose proof (binary_normalize_not_nan m e) as Hn;
      pose proof (binary_normalize_nonneg m e) as Hs
  end.
  specialize (Hs ltac:(unfold cond_Zopp; lia)).
  destruct (binary_normalize _ _ _ _ _) as [[]|[]| |[] m e];
    try reflexivity; try discriminate; congruence.
Qed.

(** A non-negative number bounded by a finite one is finite. *)
Lemma bounded_finite (x m : float) :
  (0 <=? x)%float = true -> (x <=? m)%float = true ->
  (m <? infinity)%float = true ->
  (x <? infinity)%float = true /\ (neg_infinity <? x)%float = true.
Proof.
  rewrite !leb_spec, !ltb_spec, Prim2SF_zero.
  change (Prim2SF infinity) with (S754_infinity false).
  change (Prim2SF neg_infinity) with (S754_infinity true).
  unfold SFleb, SFltb.
  destruct (Prim2SF x) as [sx|sx| |sx mx ex], (Prim2SF m) as [sm|sm| |sm mm em];
    simpl; repeat match goal with s : bool |- _ => destruct s end;
    simpl; try congruence; auto.
Qed.

End FloatFacts.

(** ** Shifts, counts and the conversion of integers to doubles *)

Module CountFacts.



End CountFacts.

Module IntFloat.

(** Rounding a number that is already in canonical form returns it. *)
Lemma binary_round_aux_canonical s m e :
  fexp prec emax (Z.pos (digits2_pos m) + e) = e -> e <= emax - prec ->
  binary_round_aux prec emax s (Z.pos m) e loc_Exact = S754_finite s m e.
Proof.
  intros Hc He. unfold binary_round_aux, shr_fexp. simpl Zdigits2.
  rewrite Hc, Z.sub_diag. simpl. rewrite Hc, Z.sub_diag. simpl.
  apply Z.leb_le in He. rewrite He. reflexivity.
Qed.

Lemma shl_align_snd m e e' : e' <= e -> snd (shl_align m e e') = e'.
Proof.
  intros He. unfold shl_align. destruct (e' - e) eqn:Hd; simpl; lia.
Qed.

Lemma digits2_pos_iter_xO (k p : positive) :
  digits2_pos (Pos.iter xO p k) = (digits2_pos p + k)%positive.
Proof.
  induction k as [|k IH] using Pos.peano_ind.
  - simpl. lia.
  - rewrite Pos.iter_succ. simpl. rewrite IH. lia.
Qed.

Lemma shl_align_digits m e e' :
  e' <= e ->
  Z.pos (digits2_pos (fst (shl_align m e e'))) = Z.pos (digits2_pos m) + (e - e').
Proof.
  intros He. unfold shl_align. destruct (e' - e) eqn:Hd; simpl; try lia.
  rewrite digits2_pos_iter_xO. lia.
Qed.

Lemma digits_small p : Z.pos p < 2 ^ 53 -> Z.pos (digits2_pos p) <= 53.
Proof.
  intros Hp. rewrite FloatFacts.digits2_pos_size.
  pose proof (Pos.size_le p) as Hle. apply Pos2Z.pos_le_pos in Hle.
  rewrite Pos2Z.inj_pow, (Pos2Z.inj_xO p) in Hle.
  destruct (Z.le_gt_cases (Z.pos (Pos.size p)) 53) as [H|H]; [exact H|].
  assert (2 ^ 54 <= 2 ^ Z.pos (Pos.size p)) by (apply Z.pow_le_mono_r; lia).
  change (2 ^ 54) with (2 * 2 ^ 53) in *. lia.
Qed.

(** An integer below 2^53 converts exactly: the double is [mz * 2^ez] with
    [ez <= 0] and [mz = p * 2^(-ez)]. *)
Lemma binary_normalize_small_int p :
  Z.pos p < 2 ^ 53 ->
  exists mz ez,
    binary_normalize prec emax (Z.pos p) 0 false = S754_finite false mz ez
    /\ ez <= 0 /\ Z.pos mz = Z.pos p * 2 ^ (- ez).
Proof.
  intros Hp. pose proof (digits_small p Hp) as Hd.
  unfold binary_normalize, binary_round.
  set (d := Z.pos (digits2_pos p)) in *.
  assert (Hf : fexp prec emax (d + 0) = d - 53).
  { unfold fexp, SpecFloat.emin, prec, emax. lia. }
  rewrite Hf.
  pose proof (FloatFacts.shl_align_fst p 0 (d - 53) ltac:(lia)) as H1.
  pose proof (shl_align_snd p 0 (d - 53) ltac:(lia)) as H2.
  pose proof (shl_align_digits p 0 (d - 53) ltac:(lia)) as H3.
  destruct (shl_align p 0 (d - 53)) as [mz ez]. simpl in H1, H2, H3. subst ez.
  exists mz, (d - 53). split; [|split].
  - apply binary_round_aux_canonical.
    + rewrite H3. fold d. unfold fexp, SpecFloat.emin, prec, emax. lia.
    + unfold prec, emax. lia.
  - lia.
  - rewrite H1. replace (0 - (d - 53)) with (- (d - 53)) by lia. reflexivity.
Qed.


Lemma to_Z_of_nat k :
  Z.of_nat k < 2 ^ 53 -> Uint63.to_Z (Uint63.of_Z (Z.of_nat k)) = Z.of_nat k.
Proof.
  intros Hk. rewrite Uint63.of_Z_spec. apply Z.mod_small.
  split; [lia|]. eapply Z.lt_trans; [exact Hk|]. reflexivity.
Qed.

Lemma Prim2SF_of_zero :
  Prim2SF (of_uint63 (Uint63.of_Z (Z.of_nat 0))) = S754_zero false.
Proof. reflexivity. Qed.

(** A positive count below 2^53 converts to a double exactly. *)
Lemma Prim2SF_of_nat k :
  0 < Z.of_nat k < 2 ^ 53 ->
  exists mz ez,
    Prim2SF (of_uint63 (Uint63.of_Z (Z.of_nat k))) = S754_finite false mz ez
    /\ ez <= 0 /\ Z.pos mz = Z.of_nat k * 2 ^ (- ez).
Proof.
  intros [Hk0 Hk]. rewrite of_uint63_spec, to_Z_of_nat by exact Hk.
  destruct (Z.of_nat k) as [|p|p] eqn:Hp; try lia.
  apply binary_normalize_small_int. exact Hk.
Qed.

(** [i] lies below [m * 2^e] exactly when it lies below its ceiling. *)
Lemma lt_ceil_iff (m : positive) (e z i : Z) :
  z <= e -> z <= 0 ->
  (i * 2 ^ (- z) < Z.pos m * 2 ^ (e - z) <-> i < - Z.shiftl (Z.neg m) e).
Proof.
  intros Hze Hz.
  assert (HA : 0 < 2 ^ (- z)) by (apply Z.pow_pos_nonneg; lia).
  destruct (Z.le_gt_cases 0 e) as [He|He].
  - rewrite Z.shiftl_mul_pow2 by lia.
    replace (e - z) with (e + - z) by lia. rewrite Z.pow_add_r by lia.
    rewrite Z.mul_assoc, <- Z.mul_lt_mono_pos_r by exact HA.
    change (Z.neg m) with (- Z.pos m).
    rewrite Z.mul_opp_l, Z.opp_involutive. reflexivity.
  - replace e with (- (- e)) at 2 by lia.
    rewrite Z.shiftl_opp_r, Z.shiftr_div_pow2 by lia.
    replace (- z) with (- e + (e - z)) by lia. rewrite Z.pow_add_r by lia.
    assert (HK : 0 < 2 ^ (- e)) by (apply Z.pow_pos_nonneg; lia).
    assert (HB : 0 < 2 ^ (e - z)) by (apply Z.pow_pos_nonneg; lia).
    pose proof (Z.div_mod (Z.neg m) (2 ^ (- e)) ltac:(lia)) as H1.
    pose proof (Z.mod_pos_bound (Z.neg m) (2 ^ (- e)) HK) as H2.
    set (K := 2 ^ (- e)) in *. set (B := 2 ^ (e - z)) in *.
    set (q := Z.neg m / K) in *. set (r := Z.neg m mod K) in *.
    assert (Hm : Z.pos m = - (K * q + r)) by lia.
    rewrite Hm, Z.mul_assoc, <- Z.mul_lt_mono_pos_r by exact HB.
    split; intros H.
    + assert (K * (i + q) < 0) by lia.
      destruct (Z.le_gt_cases 0 (i + q)) as [Hge|Hlt]; [|lia].
      pose proof (Z.mul_nonneg_nonneg K (i + q) ltac:(lia) Hge). lia.
    + assert (Hle : i + q + 1 <= 0) by lia.
      pose proof (Z.mul_nonneg_nonpos K (i + q + 1) ltac:(lia) Hle). lia.
Qed.

End IntFloat.

(** ** NaNs and equal doubles *)

Module NanFacts.

Lemma is_nan_Prim2SF (x : float) : is_nan x = true <-> Prim2SF x = S754_nan.
Proof.
  unfold is_nan. rewrite FloatAxioms.eqb_spec. unfold SFeqb.
  destruct (Prim2SF x) as [[]|[]| |[] m e]; simpl;
    rewrite ?Z.compare_refl, ?Pos.compare_cont_refl; simpl;
    split; congruence.
Qed.


Lemma add_nan_r (x y : float) :
  Prim2SF y = S754_nan -> Prim2SF (x + y) = S754_nan.
Proof.
  intros H. rewrite add_spec, H. destruct (Prim2SF x) as [[]|[]| |[] m e]; reflexivity.
Qed.

Lemma sub_nan_l (x y : float) :
  Prim2SF x = S754_nan -> Prim2SF (x - y) = S754_nan.
Proof. intros H. rewrite sub_spec, H. reflexivity. Qed.

Lemma ltb_nan_r (c x : float) :
  Prim2SF x = S754_nan -> (c <? x)%float = false.
Proof.
  intros H. rewrite ltb_spec, H. unfold SFltb.
  destruct (Prim2SF c) as [[]|[]| |[] m e]; reflexivity.
Qed.


(** Comparing equal to a number excludes lying above it. *)
Lemma eqb_not_gt (x c : float) :
  (x =? c)%float = true -> (c <? x)%float = false.
Proof.
  rewrite FloatAxioms.eqb_spec, ltb_spec. unfold SFeqb, SFltb.
  destruct (Prim2SF x) as [[]|[]| |[] m e], (Prim2SF c) as [[]|[]| |[] mc ec];
    simpl; try congruence;
    (destruct (Z.compare_spec e ec) as [->|?|?]; try congruence;
     rewrite Z.compare_refl;
     destruct (Pos.compare_cont Eq m mc) eqn:Hm; simpl; try congruence;
     apply Pos.compare_eq in Hm; subst mc;
     rewrite Pos.compare_cont_refl; reflexivity).
Qed.

End NanFacts.


(** ** The loops, as functions of the data they traverse *)

Lemma for_loop_S {St : Type} (k : nat) (body : nat -> St -> St) (s : St) :
  for_loop (S k) body s = body k (for_loop k body s).
Proof. unfold for_loop. rewrite seq_S, fold_left_app. reflexivity. Qed.

(** Assigning slot after slot: after [j] rounds the first [j] slots hold
    the assigned values and the others are untouched. *)
Lemma assign_loop_prefix {A : Type} (f : nat -> A) (l : list A) (j : nat) :
  (j <= length l)%nat ->
  for_loop j (fun i v => <[i := f i]> v) l = (f <$> seq 0 j) ++ drop j l.
Proof.
  induction j as [|j IH]; intros Hj.
  - reflexivity.
  - rewrite for_loop_S, IH by lia.
    destruct (lookup_lt_is_Some_2 l j ltac:(lia)) as [y Hy].
    rewrite (drop_S _ _ _ Hy).
    rewrite insert_app_r_alt by (rewrite length_fmap, length_seq; lia).
    rewrite length_fmap, length_seq, Nat.sub_diag.
    rewrite seq_S, fmap_app, <- app_assoc. reflexivity.
Qed.

(** Accumulating two sums side by side. *)
Lemma sum_loop_pair (f g : nat -> float) (k : nat) (x y : float) :
  for_loop k (fun i '(u, v) => ((u + f i)%float, (v + g i)%float)) (x, y)
  = (fold_left PrimFloat.add (f <$> seq 0 k) x,
     fold_left PrimFloat.add (g <$> seq 0 k) y).
Proof.
  unfold for_loop. generalize (seq 0 k) as l. intros l. revert x y.
  induction l as [|i l IH]; intros x y; simpl; [reflexivity|apply IH].
Qed.

Lemma mass_terms_sums params cur input_flux nxt fl (mem : memory) :
  mass_terms params cur input_flux nxt fl mem
  = ((fold_left PrimFloat.add (cascade_storages mem (Sr cur) (loop_len (n params)))
        (storage cur + groundwater_storage cur) + input_flux)%float,
     (fold_left PrimFloat.add (cascade_storages mem (Sr nxt) (loop_len (n params)))
        (storage nxt + groundwater_storage nxt)
      + (et_loss fl + runnoff fl + slow_flow fl))%float).
Proof.
  unfold mass_terms.
  rewrite (sum_loop_pair (fun i => mem (Sr cur + Z.of_nat i))
             (fun i => mem (Sr nxt + Z.of_nat i))).
  reflexivity.
Qed.

Section KernelLoops.
Context `{E : Externals}.

Lemma nash_init_map params state (mem : memory) :
  nash_init params state mem
  = cascade_reservoir params state mem <$> seq 0 (resize_len (n params)).
Proof.
  unfold nash_init, cascade_reservoir.
  rewrite (assign_loop_prefix
             (fun i => LinearReservoir_new (mem (Sr state + Z.of_nat i))
                         (max_storage params) (Kq params) 86400%float)) by lia.
  rewrite drop_ge, app_nil_r, length_replicate by lia. reflexivity.
Qed.

Lemma pipeline_snoc dt cascade r inflow :
  pipeline dt (cascade ++ [r]) inflow
  = let '(mid, cascade') := pipeline dt cascade inflow in
    let '(out, r') := response r mid dt in
    (out, cascade' ++ [r']).
Proof.
  revert inflow. induction cascade as [|r0 rest IH]; intros inflow; simpl.
  - destruct (response r inflow dt). reflexivity.
  - destruct (response r0 inflow dt) as [out0 r0'].
    rewrite IH. destruct (pipeline dt rest out0) as [mid rest'].
    destruct (response r mid dt). reflexivity.
Qed.

Lemma length_pipeline dt cascade inflow :
  length (snd (pipeline dt cascade inflow)) = length cascade.
Proof.
  revert inflow. induction cascade as [|r rest IH]; intros inflow; simpl.
  - reflexivity.
  - destruct (response r inflow dt) as [out r'].
    specialize (IH out). destruct (pipeline dt rest out). simpl in *. lia.
Qed.

(** After [j] rounds of the response loop, the first [j] reservoirs have
    responded in pipeline order and the others are untouched. *)
Lemma nash_response_prefix dt (cascade : list LinearReservoir) inflow (j : nat) :
  (j <= length cascade)%nat ->
  for_loop j
    (fun i '(runoff, nash_cascade) =>
       match nash_cascade !! i with
       | Some r =>
           let '(out, r') := response r runoff dt in
           (out, <[i := r']> nash_cascade)
       | None => (runoff, nash_cascade)
       end)
    (inflow, cascade)
  = (fst (pipeline dt (take j cascade) inflow),
     snd (pipeline dt (take j cascade) inflow) ++ drop j cascade).
Proof.
  induction j as [|j IH]; intros Hj.
  - reflexivity.
  - rewrite for_loop_S, IH by lia. clear IH.
    destruct (lookup_lt_is_Some_2 cascade j ltac:(lia)) as [r Hr].
    rewrite (take_S_r _ _ _ Hr), pipeline_snoc.
    pose proof (length_pipeline dt (take j cascade) inflow) as Hlen.
    rewrite length_take_le in Hlen by lia.
    destruct (pipeline dt (take j cascade) inflow) as [mid done]. simpl in *.
    rewrite lookup_app_r by lia.
    rewrite Hlen, Nat.sub_diag, lookup_drop, Nat.add_0_r, Hr.
    destruct (response r mid dt) as [out r']. simpl.
    rewrite insert_app_r_alt by lia.
    rewrite Hlen, Nat.sub_diag, (drop_S _ _ _ Hr). simpl.
    rewrite <- app_assoc. reflexivity.
Qed.

Lemma nash_response_pipeline dt cascade inflow :
  nash_response dt cascade inflow = pipeline dt cascade inflow.
Proof.
  unfold nash_response. rewrite nash_response_prefix by lia.
  rewrite take_ge, drop_ge, app_nil_r by lia.
  destruct (pipeline dt cascade inflow). reflexivity.
Qed.

(** The store loop writes slot [i] of the destination for every reservoir
    and nothing else. *)
Lemma store_loop_spec (new_Sr : ptr) (cascade : list LinearReservoir)
    (mem : memory) (j : nat) :
  (j <= length cascade)%nat ->
  let mem' :=
    for_loop j
      (fun i (mem : memory) =>
         match cascade !! i with
         | Some r => <[new_Sr + Z.of_nat i := get_storage r]> mem
         | None => mem
         end) mem in
  (forall i r, (i < j)%nat -> cascade !! i = Some r ->
               mem' (new_Sr + Z.of_nat i) = get_storage r) /\
  (forall q, (q < new_Sr \/ new_Sr + Z.of_nat j <= q) -> mem' q = mem q).
Proof.
  induction j as [|j IH]; intros Hj; cbv zeta.
  - split; [intros; lia | reflexivity].
  - rewrite for_loop_S. specialize (IH ltac:(lia)). cbv zeta in IH.
    destruct IH as [IHin IHout].
    destruct (lookup_lt_is_Some_2 cascade j ltac:(lia)) as [r Hr]. rewrite Hr.
    split.
    + intros i r0 Hi Hr0. destruct (decide (i = j)) as [->|Hne].
      * rewrite fn_lookup_insert. congruence.
      * rewrite fn_lookup_insert_ne by lia. apply IHin; [lia|exact Hr0].
    + intros q Hq. rewrite fn_lookup_insert_ne by lia. apply IHout. lia.
Qed.

Lemma store_cascade_inside (new_Sr : ptr) cascade (mem : memory) i r :
  cascade !! i = Some r ->
  store_cascade new_Sr cascade mem (new_Sr + Z.of_nat i) = get_storage r.
Proof.
  intros Hr. apply (store_loop_spec new_Sr cascade mem (length cascade)); auto.
  eapply lookup_lt_Some; eauto.
Qed.

Lemma store_cascade_outside (new_Sr : ptr) cascade (mem : memory) q :
  (q < new_Sr \/ new_Sr + Z.of_nat (length cascade) <= q) ->
  store_cascade new_Sr cascade mem q = mem q.
Proof.
  intros Hq. apply (store_loop_spec new_Sr cascade mem (length cascade)); auto.
Qed.



End KernelLoops.

(** ** The kernel in closed form *)

Section KernelFacts.
Context `{E : Externals}.

Lemma run_closed_form dt params state new_state fluxes input_flux et_params
    (mem : memory) :
  let '(ns, fl, mem') :=
    step_outputs dt params state new_state input_flux et_params mem in
  run dt params state new_state fluxes input_flux et_params mem
  = {| status :=
         mass_check params
           (set_storage state (storage state + input_flux)%float)
           input_flux ns fl mem';
       out_state := ns;
       out_fluxes := fl;
       out_mem := mem' |}.
Proof.
  unfold step_outputs, run, groundwater_step, initial_cascade, excess_fraction.
  rewrite nash_response_pipeline, nash_init_map. simpl.
  destruct (response (LinearReservoir_new _ _ _ _) _ dt) as [slow_flow gw].
  destruct (pipeline dt _ _) as [runoff nc]. reflexivity.
Qed.

End KernelFacts.

(** ** Properties of the kernel *)

Section Properties.
Context `{E : Externals}.

Lemma mass_check_cases params cur input_flux nxt fl (mem : memory) :
  mass_check params cur input_flux nxt fl mem
  = if (0.000001 <? fst (mass_terms params cur input_flux nxt fl mem)
                    - snd (mass_terms params cur input_flux nxt fl mem))%float
    then 100 else 0.
Proof.
  unfold mass_check. destruct (mass_terms _ _ _ _ _ _). reflexivity.
Qed.

Lemma run_status dt params state new_state fluxes input_flux et_params
    (mem : memory) :
  let r := run dt params state new_state fluxes input_flux et_params mem in
  status r
  = mass_check params (set_storage state (storage state + input_flux)%float)
      input_flux (out_state r) (out_fluxes r) (out_mem r).
Proof.
  pose proof (run_closed_form dt params state new_state fluxes input_flux
                et_params mem) as H.
  destruct (step_outputs _ _ _ _ _ _ _) as [[ns fl] mem'].
  cbv zeta. rewrite H. reflexivity.
Qed.

Lemma run_outputs dt params state new_state fluxes input_flux et_params
    (mem : memory) :
  let r := run dt params state new_state fluxes input_flux et_params mem in
  (out_state r, out_fluxes r, out_mem r)
  = step_outputs dt params state new_state input_flux et_params mem.
Proof.
  pose proof (run_closed_form dt params state new_state fluxes input_flux
                et_params mem) as H.
  destruct (step_outputs _ _ _ _ _ _ _) as [[ns fl] mem'].
  cbv zeta. rewrite H. reflexivity.
Qed.


(** C2: the check inside [run] sees the state copy whose storage already
    includes [input_flux], and adds [input_flux] once more: with the
    caller's buffers disjoint, the initial mass of the check is the
    left-to-right sum of (pre-call storage + input_flux), the groundwater
    storage and the pre-call cascade storages, plus input_flux again. *)
Theorem run_check_counts_input_twice :
  forall dt params state new_state fluxes input_flux et_params (mem : memory) k,
  cascade_count params k ->
  buffers_disjoint (Sr state) (Sr new_state) k ->
  let r := run dt params state new_state fluxes input_flux et_params mem in
  let checked := set_storage state (storage state + input_flux)%float in
  status r
  = mass_check params checked input_flux (out_state r) (out_fluxes r) (out_mem r)
  /\ storage checked = (storage state + input_flux)%float
  /\ fst (mass_terms params checked input_flux (out_state r) (out_fluxes r)
            (out_mem r))
     = (fold_left PrimFloat.add (cascade_storages mem (Sr state) k)
          (storage state + input_flux + groundwater_storage state)
        + input_flux)%float.
Proof.
  intros dt params state new_state fluxes input_flux et_params mem k
    [Hres Hloop] Hdisj r checked.
  split; [apply run_status|]. split; [reflexivity|].
  rewrite mass_terms_sums. simpl fst. rewrite Hloop.
  f_equal. f_equal.
  unfold cascade_storages. apply list_fmap_ext. intros j i Hi.
  apply lookup_seq in Hi as [-> Hi]. simpl.
  pose proof (run_outputs dt params state new_state fluxes input_flux
                et_params mem) as Hout.
  fold r in Hout. unfold step_outputs in Hout.
  injection Hout as _ _ Hmem. rewrite Hmem.
  apply store_cascade_outside.
  rewrite length_pipeline. unfold initial_cascade.
  rewrite length_fmap, length_seq, Hres.
  unfold buffers_disjoint in Hdisj. lia.
Qed.

(** C3: for every call, with [s] the storage after [input_flux] is added,
    the kernel computes [fs = 1 - pow (1 - s / max_storage) b], feeds
    [fs * a] to the cascade and [fs * (1 - a)] to the groundwater
    reservoir, and takes [soil_m = s - fs]; nothing clamps [s]. *)
Theorem run_partition :
  forall dt params state new_state fluxes input_flux et_params (mem : memory),
  let s := (storage state + input_flux)%float in
  let fs := (1 - pow (1 - s / max_storage params) (b params))%float in
  let runoff_in := (fs * a params)%float in
  let slow_in := (fs * (1 - a params))%float in
  let soil_m := (s - fs)%float in
  let r := run dt params state new_state fluxes input_flux et_params mem in
  storage (out_state r) = (soil_m - calc_et soil_m et_params)%float /\
  et_loss (out_fluxes r) = calc_et soil_m et_params /\
  slow_flow (out_fluxes r) = fst (groundwater_step dt params state slow_in) /\
  groundwater_storage (out_state r)
  = get_storage (snd (groundwater_step dt params state slow_in)) /\
  runnoff (out_fluxes r)
  = fst (pipeline dt (initial_cascade params state mem) runoff_in).
Proof.
  intros dt params state new_state fluxes input_flux et_params mem
    s fs runoff_in slow_in soil_m r.
  pose proof (run_outputs dt params state new_state fluxes input_flux
                et_params mem) as Hout.
  fold r in Hout. unfold step_outputs in Hout.
  injection Hout as Hst Hfl _. rewrite Hst, Hfl. repeat split.
Qed.




(** C6: after a call with disjoint buffers the caller's current state is
    as before: its fields, and every cascade storage behind its [Sr]; the
    only memory written is the first [n] cells behind [new_state.Sr], and
    the new state keeps its [Sr]. *)
Theorem run_leaves_caller_state :
  forall dt params (c : caller) input_flux et_params k,
  resize_len (n params) = k ->
  buffers_disjoint (Sr (its_state c)) (Sr (its_new_state c)) k ->
  let c' := snd (call_run dt params c input_flux et_params) in
  its_state c' = its_state c /\
  (forall i, (i < k)%nat ->
     its_memory c' (Sr (its_state c') + Z.of_nat i)
     = its_memory c (Sr (its_state c) + Z.of_nat i)) /\
  (forall q, (q < Sr (its_new_state c)
              \/ Sr (its_new_state c) + Z.of_nat k <= q) ->
     its_memory c' q = its_memory c q) /\
  Sr (its_new_state c') = Sr (its_new_state c).
Proof.
  intros dt params c input_flux et_params k Hres Hdisj c'.
  pose proof (run_outputs dt params (its_state c) (its_new_state c)
                (its_fluxes c) input_flux et_params (its_memory c)) as Hout.
  unfold step_outputs in Hout. injection Hout as Hst _ Hmem.
  assert (Hframe : forall q,
            (q < Sr (its_new_state c)
             \/ Sr (its_new_state c) + Z.of_nat k <= q) ->
            its_memory c' q = its_memory c q).
  { intros q Hq. unfold c', call_run. simpl. rewrite Hmem.
    apply store_cascade_outside.
    rewrite length_pipeline. unfold initial_cascade.
    rewrite length_fmap, length_seq, Hres. exact Hq. }
  split; [reflexivity|]. split; [|split; [exact Hframe|]].
  - intros i Hi. apply Hframe. unfold buffers_disjoint in Hdisj.
    change (its_state c') with (its_state c). lia.
  - unfold c', call_run. simpl. rewrite Hst. reflexivity.
Qed.

Lemma zero_count (x : float) :
  (x =? 0)%float = true -> resize_len x = 0%nat /\ loop_len x = 0%nat.
Proof.
  rewrite FloatAxioms.eqb_spec, FloatFacts.Prim2SF_zero. unfold resize_len, loop_len, SFeqb.
  destruct (Prim2SF x) as [sx|sx| |[] m e]; simpl; try discriminate; auto.
Qed.

(** C7: when [params.n] is zero the cascade is empty: the runoff flux is
    [runoff_in = fs * a] itself and the memory is left as it was. *)
Theorem run_without_cascade :
  forall dt params state new_state fluxes input_flux et_params (mem : memory),
  (n params =? 0)%float = true ->
  let s := (storage state + input_flux)%float in
  let r := run dt params state new_state fluxes input_flux et_params mem in
  initial_cascade params state mem = [] /\
  runnoff (out_fluxes r) = (excess_fraction params s * a params)%float /\
  out_mem r = mem.
Proof.
  intros dt params state new_state fluxes input_flux et_params mem Hn s r.
  apply zero_count in Hn as [Hres _].
  pose proof (run_outputs dt params state new_state fluxes input_flux
                et_params mem) as Hout.
  fold r in Hout. unfold step_outputs, initial_cascade in Hout.
  rewrite Hres in Hout. simpl in Hout.
  injection Hout as _ Hfl Hmem.
  unfold initial_cascade. rewrite Hres, Hfl, Hmem. repeat split.
Qed.

Lemma run_default_et_is_zero_aux dt params state new_state fluxes input_flux
    et_params (mem : memory) :
  let s := (storage state + input_flux)%float in
  let r := run dt params state new_state fluxes input_flux et_params mem in
  et_loss (out_fluxes r) = 0%float /\
  storage (out_state r) = (s - excess_fraction params s)%float.
Proof.
  intros s r.
  pose proof (run_outputs dt params state new_state fluxes input_flux
                et_params mem) as Hout.
  fold r in Hout. unfold step_outputs in Hout.
  injection Hout as Hst Hfl _. rewrite Hst, Hfl. simpl.
  unfold calc_et. rewrite FloatFacts.sub_zero_r. split; reflexivity.
Qed.

(** C8: the stub [calc_et] returns 0 whatever its arguments, so [run]
    reports an ET loss of exactly 0 and the new storage is [soil_m]. *)
Theorem run_default_et_is_zero :
  forall dt params state new_state fluxes input_flux et_params (mem : memory),
  let s := (storage state + input_flux)%float in
  let soil_m := (s - excess_fraction params s)%float in
  let r := run dt params state new_state fluxes input_flux et_params mem in
  (forall soil p, calc_et soil p = 0%float) /\
  et_loss (out_fluxes r) = 0%float /\
  storage (out_state r) = soil_m.
Proof.
  intros dt params state new_state fluxes input_flux et_params mem s soil_m r.
  destruct (run_default_et_is_zero_aux dt params state new_state fluxes
              input_flux et_params mem) as [Het Hs].
  split; [reflexivity|]. split; assumption.
Qed.

(** C9, as the code has it: with the stub, the new storage is
    [soil_m = s - fs] for [s = storage + input_flux]; under the constraints
    on the parameters it is non-negative when moreover [max_storage] is
    finite and the excess [fs] does not exceed [s]. *)
Theorem run_storage_nonneg_when_excess_fits :
  forall dt params state new_state fluxes input_flux et_params (mem : memory),
  (0 <=? storage state)%float = true ->
  (storage state + input_flux <=? max_storage params)%float = true ->
  (0 <=? input_flux)%float = true ->
  (0 <? max_storage params)%float = true ->
  (0 <=? a params)%float = true -> (a params <=? 1)%float = true ->
  (0 <? b params)%float = true ->
  (max_storage params <? infinity)%float = true ->
  (excess_fraction params (storage state + input_flux)
   <=? storage state + input_flux)%float = true ->
  let s := (storage state + input_flux)%float in
  let r := run dt params state new_state fluxes input_flux et_params mem in
  storage (out_state r) = (s - excess_fraction params s)%float /\
  (0 <=? storage (out_state r))%float = true.
Proof.
  intros dt params state new_state fluxes input_flux et_params mem
    Hst Hle Hin _ _ _ _ Hfin Hfs s r.
  destruct (run_default_et_is_zero_aux dt params state new_state fluxes
              input_flux et_params mem) as [_ Hs].
  fold s r in Hs. split; [exact Hs|]. rewrite Hs.
  pose proof (FloatFacts.add_nonneg _ _ Hst Hin) as Hs0.
  destruct (FloatFacts.bounded_finite _ _ Hs0 Hle Hfin) as [Hlt Hgt].
  apply FloatFacts.leb_sub_nonneg; assumption.
Qed.

Lemma stored_cascade_storages (sr : Z) (cascade : list LinearReservoir)
    (mem : memory) :
  cascade_storages (store_cascade sr cascade mem) sr (length cascade)
  = get_storage <$> cascade.
Proof.
  apply list_eq. intros i. unfold cascade_storages.
  rewrite !list_lookup_fmap.
  destruct (cascade !! i) as [r|] eqn:Hr.
  - rewrite lookup_seq_lt by (eapply lookup_lt_Some; eauto). simpl.
    f_equal. apply store_cascade_inside. exact Hr.
  - rewrite lookup_seq_ge by (apply lookup_ge_None; exact Hr). reflexivity.
Qed.

Lemma untouched_cascade_storages (p q : Z) (cascade : list LinearReservoir)
    (mem : memory) k :
  length cascade = k -> buffers_disjoint p q k ->
  cascade_storages (store_cascade q cascade mem) p k = cascade_storages mem p k.
Proof.
  intros Hlen Hdisj. unfold cascade_storages.
  apply list_fmap_ext. intros j i Hi.
  apply lookup_seq in Hi as [-> Hi]. simpl.
  apply store_cascade_outside. unfold buffers_disjoint in Hdisj. lia.
Qed.

(** C10: two calls with the same [dt], [params], [state] (the cascade
    storages behind [state.Sr] included) and [input_flux] give the same
    status, the same new state contents and the same fluxes, whatever the
    output objects and their [Sr] buffers held before, these buffers being
    disjoint from the state's as [run] requires. *)
Theorem run_is_deterministic :
  forall dt params state input_flux k
         new_state1 fluxes1 et_params1 (mem1 : memory)
         new_state2 fluxes2 et_params2 (mem2 : memory),
  cascade_count params k ->
  buffers_disjoint (Sr state) (Sr new_state1) k ->
  buffers_disjoint (Sr state) (Sr new_state2) k ->
  (forall i, (i < k)%nat ->
     mem1 (Sr state + Z.of_nat i) = mem2 (Sr state + Z.of_nat i)) ->
  let r1 := run dt params state new_state1 fluxes1 input_flux et_params1 mem1 in
  let r2 := run dt params state new_state2 fluxes2 input_flux et_params2 mem2 in
  status r1 = status r2 /\
  storage (out_state r1) = storage (out_state r2) /\
  groundwater_storage (out_state r1) = groundwater_storage (out_state r2) /\
  out_fluxes r1 = out_fluxes r2 /\
  (forall i, (i < k)%nat ->
     out_mem r1 (Sr new_state1 + Z.of_nat i)
     = out_mem r2 (Sr new_state2 + Z.of_nat i)).
Proof.
  intros dt params state input_flux k new_state1 fluxes1 et_params1 mem1
    new_state2 fluxes2 et_params2 mem2 [Hres Hloop] Hd1 Hd2 Hmem r1 r2.
  assert (Hcas : initial_cascade params state mem1
                 = initial_cascade params state mem2).
  { unfold initial_cascade. apply list_fmap_ext. intros j i Hi.
    apply lookup_seq in Hi as [-> Hi]. simpl.
    unfold cascade_reservoir. rewrite Hmem by lia. reflexivity. }
  pose proof (run_status dt params state new_state1 fluxes1 input_flux
                et_params1 mem1) as Hs1.
  pose proof (run_status dt params state new_state2 fluxes2 input_flux
                et_params2 mem2) as Hs2.
  pose proof (run_outputs dt params state new_state1 fluxes1 input_flux
                et_params1 mem1) as Ho1.
  pose proof (run_outputs dt params state new_state2 fluxes2 input_flux
                et_params2 mem2) as Ho2.
  fold r1 in Hs1, Ho1. fold r2 in Hs2, Ho2.
  unfold step_outputs in Ho1, Ho2. rewrite <- Hcas in Ho2.
  set (s := (storage state + input_flux)%float) in *.
  set (nc := pipeline dt (initial_cascade params state mem1)
               (excess_fraction params s * a params)%float) in *.
  assert (Hlen : length (snd nc) = k).
  { unfold nc. rewrite length_pipeline. unfold initial_cascade.
    rewrite length_fmap, length_seq. exact Hres. }
  injection Ho1 as Hst1 Hfl1 Hm1. injection Ho2 as Hst2 Hfl2 Hm2.
  assert (Hfl : out_fluxes r1 = out_fluxes r2) by (rewrite Hfl1, Hfl2; reflexivity).
  assert (Hsto : storage (out_state r1) = storage (out_state r2))
    by (rewrite Hst1, Hst2; reflexivity).
  assert (Hgw : groundwater_storage (out_state r1)
                = groundwater_storage (out_state r2))
    by (rewrite Hst1, Hst2; reflexivity).
  assert (Hsr1 : Sr (out_state r1) = Sr new_state1) by (rewrite Hst1; reflexivity).
  assert (Hsr2 : Sr (out_state r2) = Sr new_state2) by (rewrite Hst2; reflexivity).
  repeat split; try assumption.
  - rewrite Hs1, Hs2, !mass_check_cases, !mass_terms_sums. simpl.
    rewrite Hloop, Hsr1, Hsr2, Hm1, Hm2, Hsto, Hgw, Hfl.
    rewrite (untouched_cascade_storages _ _ _ mem1 k Hlen) by assumption.
    rewrite (untouched_cascade_storages _ _ _ mem2 k Hlen) by assumption.
    rewrite <- Hlen, !stored_cascade_storages.
    replace (cascade_storages mem1 (Sr state) (length (snd nc)))
      with (cascade_storages mem2 (Sr state) (length (snd nc))); [reflexivity|].
    unfold cascade_storages. apply list_fmap_ext. intros j i Hi.
    apply lookup_seq in Hi as [-> Hi]. simpl. symmetry. apply Hmem. lia.
  - intros i Hi. rewrite Hm1, Hm2.
    destruct (lookup_lt_is_Some_2 (snd nc) i ltac:(lia)) as [res Hr].
    rewrite !(store_cascade_inside _ _ _ _ _ Hr). reflexivity.
Qed.

End Properties.

(** ** Further properties: the two counts taken from [params.n] *)



(** X2: the guard [i < params.n] of the check's loop holds exactly for the
    [i] below [loop_len], for every [int] [i >= 0] and every [params.n]
    other than +infinity (for which the loop has no last round). *)
Theorem loop_guard_counts :
  forall (x : float) (i : nat),
  (x =? infinity)%float = false ->
  Z.of_nat i < 2 ^ 31 ->
  loop_guard i x = (i <? loop_len x)%nat.
Proof.
  intros x i Hinf Hi.
  assert (Hx : Prim2SF x <> S754_infinity false).
  { intros Heq. rewrite FloatAxioms.eqb_spec, Heq in Hinf. discriminate Hinf. }
  clear Hinf. unfold loop_guard, loop_len.
  rewrite ltb_spec. unfold SFltb.
  pose proof (Prim2SF_valid x) as Hvx.
  pose proof (Prim2SF_valid (of_uint63 (Uint63.of_Z (Z.of_nat i)))) as Hvi.
  assert (Hi53 : Z.of_nat i < 2 ^ 53) by (eapply Z.lt_trans; [exact Hi|reflexivity]).
  destruct i as [|i].
  - rewrite IntFloat.Prim2SF_of_zero.
    destruct (Prim2SF x) as [s|[]| |[] m e]; simpl; try reflexivity; try congruence.
    symmetry. apply Nat.ltb_lt.
    pose proof (proj1 (IntFloat.lt_ceil_iff m e (Z.min 0 e) 0 ltac:(lia) ltac:(lia))) as H.
    assert (0 < 2 ^ (e - Z.min 0 e)) by (apply Z.pow_pos_nonneg; lia).
    specialize (H ltac:(lia)). set (C := - Z.shiftl (Z.neg m) e) in *. lia.
  - destruct (IntFloat.Prim2SF_of_nat (S i) ltac:(lia)) as (mz & ez & Hf & Hez & Hmz).
    rewrite Hf in *.
    destruct (Prim2SF x) as [s|[]| |[] m e];
      try (simpl; reflexivity); try congruence.
    rewrite (FloatFacts.aligned_compare _ _ _ _ _ _ Hvi Hvx).
    rewrite !FloatFacts.shl_align_fst by lia. unfold cond_Zopp.
    rewrite Hmz, <- Z.mul_assoc, <- Z.pow_add_r by lia.
    replace (- ez + (ez - Z.min ez e)) with (- Z.min ez e) by lia.
    pose proof (IntFloat.lt_ceil_iff m e (Z.min ez e) (Z.of_nat (S i))
                  ltac:(lia) ltac:(lia)) as Hiff.
    set (L := Z.of_nat (S i) * 2 ^ (- Z.min ez e)) in *.
    set (R := Z.pos m * 2 ^ (e - Z.min ez e)) in *.
    set (C := - Z.shiftl (Z.neg m) e) in *. clearbody L R C.
    destruct Hiff as [Hl Hr]. clear Hmz Hf Hvi Hvx Hx.
    destruct (L ?= R) eqn:Hc.
    + apply Z.compare_eq_iff in Hc. symmetry. apply Nat.ltb_ge.
      assert (Hn : ~ Z.of_nat (S i) < C) by (intros H; apply Hr in H; lia).
      clear Hl Hr. lia.
    + apply Z.compare_lt_iff in Hc. symmetry. apply Nat.ltb_lt.
      apply Hl in Hc. clear Hl Hr. lia.
    + apply Z.compare_gt_iff in Hc. symmetry. apply Nat.ltb_ge.
      assert (Hn : ~ Z.of_nat (S i) < C) by (intros H; apply Hr in H; lia).
      clear Hl Hr. lia.
Qed.

(** ** Further properties of [run] and [mass_check] *)

Section MoreProperties.
Context `{E : Externals}.

Lemma length_cascade_after dt params state input_flux (mem : Z -> float) :
  length (cascade_after dt params state input_flux mem) = resize_len (n params).
Proof.
  unfold cascade_after, initial_cascade.
  rewrite length_pipeline, length_fmap, length_seq. reflexivity.
Qed.

Lemma run_out_mem dt params state new_state fluxes input_flux et_params
    (mem : Z -> float) :
  out_mem (run dt params state new_state fluxes input_flux et_params mem)
  = store_cascade (Sr new_state)
      (cascade_after dt params state input_flux mem) mem.
Proof.
  pose proof (run_outputs dt params state new_state fluxes input_flux
                et_params mem) as Hout.
  unfold step_outputs in Hout. injection Hout as _ _ Hmem. exact Hmem.
Qed.

Lemma run_out_Sr dt params state new_state fluxes input_flux et_params
    (mem : Z -> float) :
  Sr (out_state (run dt params state new_state fluxes input_flux et_params mem))
  = Sr new_state.
Proof.
  pose proof (run_outputs dt params state new_state fluxes input_flux
                et_params mem) as Hout.
  unfold step_outputs in Hout. injection Hout as Hst _ _. rewrite Hst. reflexivity.
Qed.

(** X4: the final mass of the check inside [run] sums the cascade storages
    the step has just stored, whatever the memory held before and whether
    or not the two buffers overlap. *)
Theorem run_check_final_mass :
  forall dt params state new_state fluxes input_flux et_params (mem : Z -> float) k,
  cascade_count params k ->
  let r := run dt params state new_state fluxes input_flux et_params mem in
  snd (mass_terms params (set_storage state (storage state + input_flux)%float)
         input_flux (out_state r) (out_fluxes r) (out_mem r))
  = (fold_left PrimFloat.add
       (get_storage <$> cascade_after dt params state input_flux mem)
       (storage (out_state r) + groundwater_storage (out_state r))
     + (et_loss (out_fluxes r) + runnoff (out_fluxes r)
        + slow_flow (out_fluxes r)))%float.
Proof.
  intros dt params state new_state fluxes input_flux et_params mem k
    [Hres Hloop] r.
  rewrite mass_terms_sums. simpl snd. unfold r.
  rewrite run_out_Sr, run_out_mem, Hloop, <- Hres,
    <- (length_cascade_after dt params state input_flux mem).
  rewrite stored_cascade_storages. reflexivity.
Qed.

(** X5: when [params.n] has a fractional part the check runs one round
    more than the cascade has reservoirs, and the final mass takes in the
    cell behind the stored ones, which [run] has not written. *)
Theorem run_check_reads_stale_cell :
  forall dt params state new_state fluxes input_flux et_params (mem : Z -> float) k,
  resize_len (n params) = k ->
  loop_len (n params) = S k ->
  let r := run dt params state new_state fluxes input_flux et_params mem in
  snd (mass_terms params (set_storage state (storage state + input_flux)%float)
         input_flux (out_state r) (out_fluxes r) (out_mem r))
  = (fold_left PrimFloat.add
       ((get_storage <$> cascade_after dt params state input_flux mem)
        ++ [mem (Sr new_state + Z.of_nat k)%Z])
       (storage (out_state r) + groundwater_storage (out_state r))
     + (et_loss (out_fluxes r) + runnoff (out_fluxes r)
        + slow_flow (out_fluxes r)))%float.
Proof.
  intros dt params state new_state fluxes input_flux et_params mem k
    Hres Hloop r.
  pose proof (length_cascade_after dt params state input_flux mem) as Hlen.
  rewrite Hres in Hlen.
  rewrite mass_terms_sums. simpl snd. unfold r.
  rewrite run_out_Sr, run_out_mem, Hloop.
  unfold cascade_storages at 1. rewrite seq_S, fmap_app. simpl.
  fold (cascade_storages
          (store_cascade (Sr new_state)
             (cascade_after dt params state input_flux mem) mem)
          (Sr new_state) k).
  rewrite <- Hlen at 1. rewrite stored_cascade_storages.
  rewrite store_cascade_outside by lia. reflexivity.
Qed.

(** X6: in an in-place call, where [new_state.Sr] is [state.Sr], the check
    reads the cascade storages after they are overwritten: its initial mass
    sums the new storages, not the ones the step started from. *)
Theorem run_in_place_initial_mass :
  forall dt params state new_state fluxes input_flux et_params (mem : Z -> float) k,
  cascade_count params k ->
  Sr new_state = Sr state ->
  let r := run dt params state new_state fluxes input_flux et_params mem in
  fst (mass_terms params (set_storage state (storage state + input_flux)%float)
         input_flux (out_state r) (out_fluxes r) (out_mem r))
  = (fold_left PrimFloat.add
       (get_storage <$> cascade_after dt params state input_flux mem)
       (storage state + input_flux + groundwater_storage state)
     + input_flux)%float.
Proof.
  intros dt params state new_state fluxes input_flux et_params mem k
    [Hres Hloop] Hsr r.
  rewrite mass_terms_sums. simpl fst. unfold r.
  rewrite run_out_mem, Hloop, <- Hres,
    <- (length_cascade_after dt params state input_flux mem), Hsr.
  rewrite stored_cascade_storages. reflexivity.
Qed.

(** X9: a NaN [input_flux] is never flagged: [mass_check] returns NO_ERROR
    on it whatever the states and fluxes, so does [run], and the new
    storage [run] produces is a NaN. *)
Theorem nan_input_is_not_flagged :
  forall params input_flux,
  is_nan input_flux = true ->
  (forall cur nxt fl (mem : Z -> float),
     mass_check params cur input_flux nxt fl mem = code_value NO_ERROR) /\
  (forall dt state new_state fluxes et_params (mem : Z -> float),
     let r := run dt params state new_state fluxes input_flux et_params mem in
     status r = code_value NO_ERROR /\ is_nan (storage (out_state r)) = true).
Proof.
  intros params input_flux Hnan. apply NanFacts.is_nan_Prim2SF in Hnan.
  assert (Hchk : forall cur nxt fl (mem : Z -> float),
            mass_check params cur input_flux nxt fl mem = code_value NO_ERROR).
  { intros cur nxt fl mem. rewrite mass_check_cases, mass_terms_sums. simpl fst.
    rewrite NanFacts.ltb_nan_r; [reflexivity|].
    apply NanFacts.sub_nan_l, NanFacts.add_nan_r. exact Hnan. }
  split; [exact Hchk|]. intros dt state new_state fluxes et_params mem r.
  split.
  - unfold r. rewrite run_status. apply Hchk.
  - destruct (run_default_et_is_zero_aux dt params state new_state fluxes
                input_flux et_params mem) as [_ Hs].
    fold r in Hs. rewrite Hs. apply NanFacts.is_nan_Prim2SF.
    apply NanFacts.sub_nan_l, NanFacts.add_nan_r. exact Hnan.
Qed.


(** X10: the comparison with the tolerance is strict: a loss of exactly
    0.000001 is not flagged. *)
Theorem tolerance_is_strict :
  forall params cur input_flux nxt fl (mem : Z -> float),
  (fst (mass_terms params cur input_flux nxt fl mem)
   - snd (mass_terms params cur input_flux nxt fl mem) =? 0.000001)%float = true ->
  mass_check params cur input_flux nxt fl mem = code_value NO_ERROR.
Proof.
  intros params cur input_flux nxt fl mem H.
  rewrite mass_check_cases, (NanFacts.eqb_not_gt _ _ H). reflexivity.
Qed.

(** X8: what a step stores is what the next step starts from: built from the
    outputs of [run], the cascade has reservoir [i] start at the storage
    reservoir [i] had after its response, and the groundwater reservoir at
    the storage the groundwater reservoir was left with. *)
Theorem next_step_starts_from_stored :
  forall dt params state new_state fluxes input_flux et_params (mem : Z -> float),
  let r := run dt params state new_state fluxes input_flux et_params mem in
  let fs := excess_fraction params (storage state + input_flux) in
  initial_cascade params (out_state r) (out_mem r)
  = (fun res => LinearReservoir_new (get_storage res) (max_storage params)
                  (Kq params) 86400%float)
    <$> cascade_after dt params state input_flux mem
  /\ forall dt' slow,
       groundwater_step dt' params (out_state r) slow
       = response
           (LinearReservoir_new
              (get_storage
                 (snd (groundwater_step dt params state
                         (fs * (1 - a params))%float)))
              (max_storage params) (Ks params) 86400%float)
           slow dt'.
Proof.
  intros dt params state new_state fluxes input_flux et_params mem r fs.
  split.
  - unfold initial_cascade. apply list_eq. intros i.
    rewrite !list_lookup_fmap.
    pose proof (length_cascade_after dt params state input_flux mem) as Hlen.
    destruct (cascade_after dt params state input_flux mem !! i) as [res|] eqn:Hi.
    + rewrite lookup_seq_lt
        by (rewrite <- Hlen; eapply lookup_lt_Some; eauto).
      simpl. unfold cascade_reservoir, r.
      rewrite run_out_Sr, run_out_mem, (store_cascade_inside _ _ _ _ _ Hi).
      reflexivity.
    + rewrite lookup_seq_ge
        by (rewrite <- Hlen; apply lookup_ge_None; exact Hi).
      reflexivity.
  - intros dt' slow. unfold groundwater_step at 1.
    pose proof (run_outputs dt params state new_state fluxes input_flux
                  et_params mem) as Hout.
    fold r in Hout. unfold step_outputs in Hout.
    injection Hout as Hst _ _. rewrite Hst. reflexivity.
Qed.

Lemma store_cascade_ext (sr : Z) (cascade : list LinearReservoir)
    (mem1 mem2 : Z -> float) q :
  mem1 q = mem2 q ->
  store_cascade sr cascade mem1 q = store_cascade sr cascade mem2 q.
Proof.
  intros Hq.
  destruct (decide (sr <= q < sr + Z.of_nat (length cascade))) as [Hin|Hout].
  - destruct (lookup_lt_is_Some_2 cascade (Z.to_nat (q - sr)) ltac:(lia))
      as [res Hres].
    replace q with (sr + Z.of_nat (Z.to_nat (q - sr))) by lia.
    rewrite !(store_cascade_inside _ _ _ _ _ Hres). reflexivity.
  - rewrite !store_cascade_outside by lia. exact Hq.
Qed.

(** X7: [run] reads memory only in the [n] cells behind [state.Sr]: two
    memories that agree there give the same status, new state and fluxes,
    and the same stored cascade, also when the two buffers overlap. *)
Theorem run_reads_only_state_buffer :
  forall dt params state new_state fluxes input_flux et_params
         (mem1 mem2 : Z -> float) k,
  cascade_count params k ->
  (forall i, (i < k)%nat ->
     mem1 (Sr state + Z.of_nat i) = mem2 (Sr state + Z.of_nat i)) ->
  let r1 := run dt params state new_state fluxes input_flux et_params mem1 in
  let r2 := run dt params state new_state fluxes input_flux et_params mem2 in
  status r1 = status r2 /\
  out_state r1 = out_state r2 /\
  out_fluxes r1 = out_fluxes r2 /\
  (forall i, (i < k)%nat ->
     out_mem r1 (Sr new_state + Z.of_nat i)
     = out_mem r2 (Sr new_state + Z.of_nat i)).
Proof.
  intros dt params state new_state fluxes input_flux et_params mem1 mem2 k
    [Hres Hloop] Hmem r1 r2.
  assert (Hcas : initial_cascade params state mem1
                 = initial_cascade params state mem2).
  { unfold initial_cascade. apply list_fmap_ext. intros j i Hi.
    apply lookup_seq in Hi as [-> Hi]. simpl.
    unfold cascade_reservoir. rewrite Hmem by lia. reflexivity. }
  assert (Hafter : cascade_after dt params state input_flux mem1
                   = cascade_after dt params state input_flux mem2)
    by (unfold cascade_after; rewrite Hcas; reflexivity).
  pose proof (run_outputs dt params state new_state fluxes input_flux
                et_params mem1) as Ho1.
  pose proof (run_outputs dt params state new_state fluxes input_flux
                et_params mem2) as Ho2.
  fold r1 in Ho1. fold r2 in Ho2. unfold step_outputs in Ho1, Ho2.
  rewrite <- Hcas in Ho2.
  injection Ho1 as Hst1 Hfl1 _. injection Ho2 as Hst2 Hfl2 _.
  assert (Hst : out_state r1 = out_state r2) by congruence.
  assert (Hfl : out_fluxes r1 = out_fluxes r2) by congruence.
  split; [|split; [exact Hst|split; [exact Hfl|]]].
  - unfold r1, r2. rewrite !run_status. fold r1 r2.
    rewrite !mass_check_cases, !mass_terms_sums. simpl.
    rewrite <- Hst, <- Hfl.
    replace (cascade_storages (out_mem r2) (Sr state) (loop_len (n params)))
      with (cascade_storages (out_mem r1) (Sr state) (loop_len (n params))).
    replace (cascade_storages (out_mem r2) (Sr (out_state r1)) (loop_len (n params)))
      with (cascade_storages (out_mem r1) (Sr (out_state r1)) (loop_len (n params))).
    reflexivity.
    + unfold r1, r2. rewrite run_out_Sr, !run_out_mem, Hloop, <- Hres, <- Hafter.
      rewrite <- (length_cascade_after dt params state input_flux mem1).
      rewrite !stored_cascade_storages. reflexivity.
    + unfold cascade_storages. apply list_fmap_ext. intros j i Hi.
      apply lookup_seq in Hi as [-> Hi]. simpl.
      unfold r1, r2. rewrite !run_out_mem, <- Hafter.
      apply store_cascade_ext. apply Hmem. lia.
  - intros i Hi. unfold r1, r2. rewrite !run_out_mem, <- Hafter.
    pose proof (length_cascade_after dt params state input_flux mem1) as Hlen.
    destruct (lookup_lt_is_Some_2 (cascade_after dt params state input_flux mem1)
                i ltac:(lia)) as [res Hr].
    rewrite !(store_cascade_inside _ _ _ _ _ Hr). reflexivity.
Qed.

End MoreProperties.

(** ** The kernel on concrete inputs *)

Import Scenario.

(** The step above: the cascade responds stage after stage, the outputs
    are written, and the check, which has counted the input of 32 twice
    (110 against 78), returns MASS_BALANCE_ERROR on them. *)
Example scenario_result :
  status result = 100 /\
  out_state result
  = {| storage := 63.25; groundwater_storage := 6.28125; Sr := 10 |} /\
  out_fluxes result
  = {| slow_flow := 2.09375; runnoff := 2.09375; et_loss := 0 |} /\
  map (out_mem result) [0; 1; 10; 11; 12] = [4; 2; 2.1875; 2.09375; 0]%float /\
  mass_terms params (set_storage state 64) 32 (out_state result)
    (out_fluxes result) (out_mem result) = (110, 78)%float.
Proof. vm_compute. repeat split. Qed.

(** The same step without input passes the check. *)
Example scenario_no_input :
  status (run (E := Sample.externals) 1 params state new_state fluxes 0 0 mem)
  = 0.
Proof. vm_compute. reflexivity. Qed.

(** With a negative input of -8 the final mass (38) exceeds the initial
    one (30), and the check does not flag it. *)
Example scenario_gain_not_flagged :
  let r := run (E := Sample.externals) 1 params state new_state fluxes (-8) 0 mem in
  mass_terms params (set_storage state 24) (-8) (out_state r) (out_fluxes r)
    (out_mem r) = (30, 38)%float /\
  (30 <? 38)%float = true /\
  status r = 0.
Proof. vm_compute. repeat split. Qed.

(** The second reservoir receives the first one's outflow, not the
    kernel's [runoff_in = 0.375]: responding to that it would release
    1.1875, where the cascade releases 2.09375. *)
Example scenario_cascade_not_independent :
  runnoff (out_fluxes result) = 2.09375%float /\
  fst (response (Externals := Sample.externals)
         (cascade_reservoir (E := Sample.externals) params state mem 1)
         0.375 1) = 1.1875%float.
Proof. vm_compute. split; reflexivity. Qed.

(** The loop guard [i < params.n] agrees with the count [loop_len] here. *)
Example scenario_loop_guard :
  map (fun i => loop_guard i (n params)) [0; 1; 2; 3]%nat
  = [true; true; false; false]
  /\ cascade_count params 2 /\ cascade_count small_params 0.
Proof. vm_compute. repeat split. Qed.

(** C2 on the scenario: the check starts from 32 + 32 + 8 + 4 + 2 + 32. *)
Lemma run_check_counts_input_twice_witness :
  cascade_count params 2 /\
  buffers_disjoint (Sr state) (Sr new_state) 2 /\
  (status result
   = mass_check params (set_storage state (storage state + 32)%float) 32
       (out_state result) (out_fluxes result) (out_mem result)
   /\ storage (set_storage state (storage state + 32)%float)
      = (storage state + 32)%float
   /\ fst (mass_terms params (set_storage state (storage state + 32)%float) 32
             (out_state result) (out_fluxes result) (out_mem result))
      = (fold_left PrimFloat.add (cascade_storages mem (Sr state) 2)
           (storage state + 32 + groundwater_storage state) + 32)%float).
Proof.
  assert (H1 : cascade_count params 2) by (split; vm_compute; reflexivity).
  assert (H2 : buffers_disjoint (Sr state) (Sr new_state) 2)
    by (unfold buffers_disjoint; simpl; lia).
  split; [exact H1|]. split; [exact H2|].
  exact (run_check_counts_input_twice (E := Sample.externals)
           1 params state new_state fluxes 32 0 mem 2 H1 H2).
Defined.

(** C6 on the scenario: state buffer at 0 and 1, destination at 10 and 11. *)
Lemma run_leaves_caller_state_witness :
  resize_len (n params) = 2%nat /\
  buffers_disjoint (Sr (its_state the_caller)) (Sr (its_new_state the_caller)) 2 /\
  (let c' := snd (call_run (E := Sample.externals) 1 params the_caller 32 0) in
   its_state c' = its_state the_caller /\
   (forall i, (i < 2)%nat ->
      its_memory c' (Sr (its_state c') + Z.of_nat i)
      = its_memory the_caller (Sr (its_state the_caller) + Z.of_nat i)) /\
   (forall q, (q < Sr (its_new_state the_caller)
               \/ Sr (its_new_state the_caller) + Z.of_nat 2 <= q) ->
      its_memory c' q = its_memory the_caller q) /\
   Sr (its_new_state c') = Sr (its_new_state the_caller)).
Proof.
  assert (H1 : resize_len (n params) = 2%nat) by (vm_compute; reflexivity).
  assert (H2 : buffers_disjoint (Sr (its_state the_caller))
                 (Sr (its_new_state the_caller)) 2)
    by (unfold buffers_disjoint; simpl; lia).
  split; [exact H1|]. split; [exact H2|].
  exact (run_leaves_caller_state (E := Sample.externals)
           1 params the_caller 32 0 2 H1 H2).
Defined.

(** C7 on the inputs with [n = 0]. *)
Lemma run_without_cascade_witness :
  (n small_params =? 0)%float = true /\
  (let s := (storage small_state + 0.25)%float in
   let r := run (E := Sample.externals) 1 small_params small_state new_state
              fluxes 0.25 0 mem in
   initial_cascade (E := Sample.externals) small_params small_state mem = [] /\
   runnoff (out_fluxes r)
   = (excess_fraction (E := Sample.externals) small_params s
      * a small_params)%float /\
   out_mem r = mem).
Proof.
  assert (H1 : (n small_params =? 0)%float = true) by (vm_compute; reflexivity).
  split; [exact H1|].
  exact (run_without_cascade (E := Sample.externals)
           1 small_params small_state new_state fluxes 0.25 0 mem H1).
Defined.

(** C9 as stated fails: storage 0.25 and input 0.25 reach
    [max_storage = 0.5], all constraints hold, [fs = 1 - pow 0 1 = 1], and
    the new storage is 0.5 - 1 = -0.5. *)
Lemma storage_invariant_counterexample :
  let r := run (E := Sample.externals) 1 small_params small_state new_state
             fluxes 0.25 0 mem in
  (0 <=? storage small_state)%float = true /\
  (storage small_state + 0.25 <=? max_storage small_params)%float = true /\
  (0 <=? 0.25)%float = true /\
  (0 <? max_storage small_params)%float = true /\
  (0 <=? a small_params)%float = true /\ (a small_params <=? 1)%float = true /\
  (0 <? b small_params)%float = true /\
  storage (out_state r) = (-0.5)%float /\
  (0 <=? storage (out_state r))%float = false.
Proof. vm_compute. repeat split. Qed.

(** C9 as amended, on the scenario: [fs = 0.75] does not exceed 64. *)
Lemma run_storage_nonneg_witness :
  (0 <=? storage state)%float = true /\
  (storage state + 32 <=? max_storage params)%float = true /\
  (0 <=? 32)%float = true /\
  (0 <? max_storage params)%float = true /\
  (0 <=? a params)%float = true /\ (a params <=? 1)%float = true /\
  (0 <? b params)%float = true /\
  (max_storage params <? infinity)%float = true /\
  (excess_fraction (E := Sample.externals) params (storage state + 32)
   <=? storage state + 32)%float = true /\
  (storage (out_state result)
   = (storage state + 32
      - excess_fraction (E := Sample.externals) params (storage state + 32))%float
   /\ (0 <=? storage (out_state result))%float = true).
Proof.
  repeat (split; [vm_compute; reflexivity|]).
  apply (run_storage_nonneg_when_excess_fits (E := Sample.externals)
           1 params state new_state fluxes 32 0 mem);
    vm_compute; reflexivity.
Defined.

(** C10 on the scenario, with two different sets of output objects. *)
Lemma run_is_deterministic_witness :
  cascade_count params 2 /\
  buffers_disjoint (Sr state) (Sr new_state) 2 /\
  buffers_disjoint (Sr state) (Sr new_state') 2 /\
  (forall i, (i < 2)%nat ->
     mem (Sr state + Z.of_nat i) = mem' (Sr state + Z.of_nat i)) /\
  (let r1 := run (E := Sample.externals) 1 params state new_state fluxes 32 0 mem in
   let r2 := run (E := Sample.externals) 1 params state new_state' fluxes' 32 5 mem' in
   status r1 = status r2 /\
   storage (out_state r1) = storage (out_state r2) /\
   groundwater_storage (out_state r1) = groundwater_storage (out_state r2) /\
   out_fluxes r1 = out_fluxes r2 /\
   (forall i, (i < 2)%nat ->
      out_mem r1 (Sr new_state + Z.of_nat i)
      = out_mem r2 (Sr new_state' + Z.of_nat i))).
Proof.
  assert (H1 : cascade_count params 2) by (split; vm_compute; reflexivity).
  assert (H2 : buffers_disjoint (Sr state) (Sr new_state) 2)
    by (unfold buffers_disjoint; simpl; lia).
  assert (H3 : buffers_disjoint (Sr state) (Sr new_state') 2)
    by (unfold buffers_disjoint; simpl; lia).
  assert (H4 : forall i, (i < 2)%nat ->
            mem (Sr state + Z.of_nat i) = mem' (Sr state + Z.of_nat i))
    by (intros [|[|i]] Hi; [reflexivity|reflexivity|lia]).
  split; [exact H1|]. split; [exact H2|]. split; [exact H3|]. split; [exact H4|].
  exact (run_is_deterministic (E := Sample.externals)
           1 params state 32 2 new_state fluxes 0 mem new_state' fluxes' 5 mem'
           H1 H2 H3 H4).
Defined.

(** ** The further properties on concrete inputs *)

(** With [n = 2.5] and no input, the status depends on what the cell behind
    the two stored storages held before the call. *)
Example scenario_stale_cell_decides :
  resize_len (n fractional_params) = 2%nat /\
  loop_len (n fractional_params) = 3%nat /\
  mem 12 = 0%float /\ stale_mem 12 = (-100)%float /\
  status (run (E := Sample.externals) 1 fractional_params state new_state
            fluxes 0 0 mem) = 0 /\
  status (run (E := Sample.externals) 1 fractional_params state new_state
            fluxes 0 0 stale_mem) = 100.
Proof. vm_compute. repeat split. Qed.

(** X2 on [n = 2.5]: the guard still holds at [i = 2]. *)
Lemma loop_guard_counts_witness :
  (2.5 =? infinity)%float = false /\
  Z.of_nat 2 < 2 ^ 31 /\
  loop_guard 2 2.5 = (2 <? loop_len 2.5)%nat.
Proof.
  assert (H1 : (2.5 =? infinity)%float = false) by (vm_compute; reflexivity).
  assert (H2 : Z.of_nat 2 < 2 ^ 31) by (vm_compute; reflexivity).
  split; [exact H1|]. split; [exact H2|].
  exact (loop_guard_counts 2.5 2 H1 H2).
Defined.


(** X4 on the scenario. *)
Lemma run_check_final_mass_witness :
  cascade_count params 2 /\
  snd (mass_terms params (set_storage state (storage state + 32)%float) 32
         (out_state result) (out_fluxes result) (out_mem result))
  = (fold_left PrimFloat.add
       (get_storage (Externals := Sample.externals)
          <$> cascade_after (E := Sample.externals) 1 params state 32 mem)
       (storage (out_state result) + groundwater_storage (out_state result))
     + (et_loss (out_fluxes result) + runnoff (out_fluxes result)
        + slow_flow (out_fluxes result)))%float.
Proof.
  assert (H1 : cascade_count params 2) by (split; vm_compute; reflexivity).
  split; [exact H1|].
  exact (run_check_final_mass (E := Sample.externals)
           1 params state new_state fluxes 32 0 mem 2 H1).
Defined.

(** X5 on [n = 2.5]: cell 12, behind the stored cells 10 and 11, is summed. *)
Lemma run_check_reads_stale_cell_witness :
  resize_len (n fractional_params) = 2%nat /\
  loop_len (n fractional_params) = 3%nat /\
  (let r := run (E := Sample.externals) 1 fractional_params state new_state
              fluxes 0 0 stale_mem in
   snd (mass_terms fractional_params (set_storage state (storage state + 0)%float)
          0 (out_state r) (out_fluxes r) (out_mem r))
   = (fold_left PrimFloat.add
        ((get_storage (Externals := Sample.externals)
            <$> cascade_after (E := Sample.externals) 1 fractional_params
                  state 0 stale_mem)
         ++ [stale_mem (Sr new_state + Z.of_nat 2)])
        (storage (out_state r) + groundwater_storage (out_state r))
      + (et_loss (out_fluxes r) + runnoff (out_fluxes r)
         + slow_flow (out_fluxes r)))%float).
Proof.
  assert (H1 : resize_len (n fractional_params) = 2%nat)
    by (vm_compute; reflexivity).
  assert (H2 : loop_len (n fractional_params) = 3%nat)
    by (vm_compute; reflexivity).
  split; [exact H1|]. split; [exact H2|].
  exact (run_check_reads_stale_cell (E := Sample.externals)
           1 fractional_params state new_state fluxes 0 0 stale_mem 2 H1 H2).
Defined.

(** X6 on the scenario, writing the new cascade over the old one. *)
Lemma run_in_place_initial_mass_witness :
  cascade_count params 2 /\
  Sr in_place_state = Sr state /\
  (let r := run (E := Sample.externals) 1 params state in_place_state fluxes
              32 0 mem in
   fst (mass_terms params (set_storage state (storage state + 32)%float) 32
          (out_state r) (out_fluxes r) (out_mem r))
   = (fold_left PrimFloat.add
        (get_storage (Externals := Sample.externals)
           <$> cascade_after (E := Sample.externals) 1 params state 32 mem)
        (storage state + 32 + groundwater_storage state)
      + 32)%float).
Proof.
  assert (H1 : cascade_count params 2) by (split; vm_compute; reflexivity).
  assert (H2 : Sr in_place_state = Sr state) by reflexivity.
  split; [exact H1|]. split; [exact H2|].
  exact (run_in_place_initial_mass (E := Sample.externals)
           1 params state in_place_state fluxes 32 0 mem 2 H1 H2).
Defined.

(** In place, the check of the scenario starts from 32 + 32 + 8, the new
    storages 2.1875 and 2.09375, and 32: 108.28125 where the call with
    separate buffers has 110. *)
Example scenario_in_place :
  let r := run (E := Sample.externals) 1 params state in_place_state fluxes
             32 0 mem in
  fst (mass_terms params (set_storage state 64) 32
         (out_state r) (out_fluxes r) (out_mem r)) = 108.28125%float.
Proof. vm_compute. reflexivity. Qed.

(** X7 on the scenario: [mem] and [mem'] agree on the cells 0 and 1. *)
Lemma run_reads_only_state_buffer_witness :
  cascade_count params 2 /\
  (forall i, (i < 2)%nat ->
     mem (Sr state + Z.of_nat i) = mem' (Sr state + Z.of_nat i)) /\
  (let r1 := run (E := Sample.externals) 1 params state new_state fluxes 32 0 mem in
   let r2 := run (E := Sample.externals) 1 params state new_state fluxes 32 0 mem' in
   status r1 = status r2 /\
   out_state r1 = out_state r2 /\
   out_fluxes r1 = out_fluxes r2 /\
   (forall i, (i < 2)%nat ->
      out_mem r1 (Sr new_state + Z.of_nat i)
      = out_mem r2 (Sr new_state + Z.of_nat i))).
Proof.
  assert (H1 : cascade_count params 2) by (split; vm_compute; reflexivity).
  assert (H2 : forall i, (i < 2)%nat ->
            mem (Sr state + Z.of_nat i) = mem' (Sr state + Z.of_nat i))
    by (intros [|[|i]] Hi; [reflexivity|reflexivity|lia]).
  split; [exact H1|]. split; [exact H2|].
  exact (run_reads_only_state_buffer (E := Sample.externals)
           1 params state new_state fluxes 32 0 mem mem' 2 H1 H2).
Defined.

(** X9 on the scenario with a NaN input. *)
Lemma nan_input_is_not_flagged_witness :
  is_nan nan = true /\
  ((forall cur nxt fl (m : Z -> float),
      mass_check params cur nan nxt fl m = code_value NO_ERROR) /\
   (forall dt st new_st fl et_params (m : Z -> float),
      let r := run (E := Sample.externals) dt params st new_st fl nan et_params m in
      status r = code_value NO_ERROR /\ is_nan (storage (out_state r)) = true)).
Proof.
  assert (H1 : is_nan nan = true) by (vm_compute; reflexivity).
  split; [exact H1|].
  exact (nan_input_is_not_flagged (E := Sample.externals) params nan H1).
Defined.

(** X10: a state holding exactly 0.000001 against an empty one. *)
Lemma tolerance_is_strict_witness :
  (fst (mass_terms small_params tolerance_state 0 zero_state zero_fluxes mem)
   - snd (mass_terms small_params tolerance_state 0 zero_state zero_fluxes mem)
   =? 0.000001)%float = true /\
  mass_check small_params tolerance_state 0 zero_state zero_fluxes mem
  = code_value NO_ERROR.
Proof.
  assert (H1 : (fst (mass_terms small_params tolerance_state 0 zero_state
                       zero_fluxes mem)
                - snd (mass_terms small_params tolerance_state 0 zero_state
                         zero_fluxes mem) =? 0.000001)%float = true)
    by (vm_compute; reflexivity).
  split; [exact H1|].
  exact (tolerance_is_strict small_params tolerance_state 0 zero_state
           zero_fluxes mem H1).
Defined.

